(** * Chat orchestrator of the Bedrock sample chatbot (app/main.py)

    A shallow embedding of the request router, the three generation
    handlers and the video polling loop of [app/main.py], together with
    the properties of the specification that concern them.

    Python objects that the code mutates through aliases (the wire
    messages kept in [st.session_state.bedrock_messages]) live in an
    explicit store and are named by their address.  The classes of
    [utils.bedrock] are used through their interface only: every method
    the code calls is a field of a record, so that each result below holds
    for all implementations of them. *)

From stdpp Require Import base option list strings pretty.

(** ** Python strings *)

(** [key in s] on Python strings: [key] occurs in [s] as a substring. *)
Fixpoint py_in (key s : string) : bool :=
  String.prefix key s ||
  match s with
  | EmptyString => false
  | String _ s' => py_in key s'
  end.

(** [str(x)] for an optional string, as an f-string renders it. *)
Definition py_str (x : option string) : string :=
  match x with
  | Some s => s
  | None => "None"
  end.

(** Truth value of an optional string: [None] and [""] are falsy. *)
Definition truthy (x : option string) : bool :=
  match x with
  | Some (String _ _) => true
  | _ => false
  end.

(** The two line feeds of the f-string ["{sys_content}\n\n{user_content}"]. *)
Definition blank_line : string :=
  String (Ascii.ascii_of_nat 10) (String (Ascii.ascii_of_nat 10) EmptyString).

(** [next(iter(l), d)]. *)
Definition py_next {A : Type} (l : list A) (d : A) : A :=
  match l with
  | [] => d
  | x :: _ => x
  end.

(** ** Configuration and protocol selection (main, lines 170-181 and 252-262) *)

Inductive protocol := TextProtocol | ImageProtocol | VideoProtocol.

Section Selector.
(** The parameter bundles are JSON objects of [config.json]; nothing in
    the router looks inside them. *)
Context {P : Type}.

Record configs := {
  start_message : string;
  nova_canvas_params : P;
  nova_reel_params : P;
  claude_model_params : P;
  nova_model_params : P;
}.

(** The dict literal [model_params], in insertion order. *)
Definition model_params (cfg : configs) : list (string * P) :=
  [ ("nova-canvas", nova_canvas_params cfg);
    ("nova-reel", nova_reel_params cfg);
    ("anthropic", claude_model_params cfg);
    ("nova", nova_model_params cfg) ].

(** The generator [(params for key, params in items if key in model_id)]. *)
Definition matching (items : list (string * P)) (model_id : string) : list P :=
  snd <$> List.filter (λ kv, py_in (fst kv) model_id) items.

Definition select_params (cfg : configs) (model_id : string) : P :=
  py_next (matching (model_params cfg) model_id) (nova_model_params cfg).
End Selector.

Arguments configs : clear implicits.

(** The [if / elif / else] that picks the handler at the end of [main]. *)
Definition select_protocol (model_id : string) : protocol :=
  if py_in "nova-canvas" model_id then ImageProtocol
  else if py_in "nova-reel" model_id then VideoProtocol
  else TextProtocol.

(** ** Data model *)

(** A content block of a wire message: a dict with a ["text"] key, or one
    without (an image or a document block). *)
Inductive block :=
  | TextBlock (text : string)
  | MediaBlock (kind payload : string).

(** A wire message: [{"role": .., "content": [..]}], and for a video
    request the key ["s3_uri"] that [main] adds. *)
Record wire_message := {
  role : string;
  content : list block;
  s3_uri_key : option string;
}.

(** [base64.b64encode(data).decode('utf-8')], kept symbolic. *)
Inductive b64 := B64 (data : string).

(** The [content] of a display message: a plain string or a dict with
    ["text"] and possibly ["image"]. *)
Inductive display :=
  | DStr (s : string)
  | DDict (text : string) (image : option b64).

Record turn := { turn_role : string; turn_content : display }.

(** An entry of [st.session_state.uploaded_document_content]. *)
Record file_info := { extension : string; size : nat; processed : bool }.

(** An uploaded file: its name, [getvalue()] and [Path(name).suffix[1:]]. *)
Record file := { file_name : string; file_bytes : string; file_suffix : string }.

(** The dict returned by [generate_video]. *)
Record job_details := {
  invocation_arn : string;
  s3_bucket : string;   (* ["s3_details"]["bucket"] *)
  s3_prefix : string;   (* ["s3_details"]["prefix"] *)
}.

(** The key ["video_job"] of the session state: missing, [None], or a job. *)
Inductive job_slot :=
  | JobAbsent
  | JobNone
  | JobActive (job : job_details).

(** A document returned by the knowledge base; the score is kept as its
    text. *)
Record doc := { doc_score : string; doc_text : string; doc_location : string }.

(** Addresses of wire messages in the store. *)
Definition loc := nat.

Inductive ui_kind :=
  | UiInfo | UiSuccess | UiError | UiWrite | UiMarkdown | UiImage | UiExpander.

(** What a run does to the outside world, in order. *)
Inductive event :=
  | EvKbQuery (prompt : string)
  | EvInvoke (request : list wire_message)
  | EvInvokeStream (request : list wire_message)
  | EvGenerateVideo (prompt : string) (s3_uri : option string)
                    (image : option (string * string))
  | EvGetAsyncInvoke (arn : string)
  | EvCheckVideo (bucket prefix : string)
  | EvSleep (seconds : nat)
  | EvUi (kind : ui_kind) (text : string)
  | EvUiSource (index : nat) (d : doc).

(** The session state of one browser session, the store of wire-message
    objects, and the trace of events so far. *)
Record state := {
  messages : list turn;
  bedrock_messages : list loc;
  uploaded_document_content : list (string * file_info);
  video_job : job_slot;
  uploaded_files : list file;
  heap : list wire_message;
  log : list event;
}.

Definition set_messages (f : list turn → list turn) (s : state) : state :=
  {| messages := f (messages s); bedrock_messages := bedrock_messages s;
     uploaded_document_content := uploaded_document_content s;
     video_job := video_job s; uploaded_files := uploaded_files s;
     heap := heap s; log := log s |}.

Definition set_bedrock_messages (f : list loc → list loc) (s : state) : state :=
  {| messages := messages s; bedrock_messages := f (bedrock_messages s);
     uploaded_document_content := uploaded_document_content s;
     video_job := video_job s; uploaded_files := uploaded_files s;
     heap := heap s; log := log s |}.

Definition set_uploaded_document_content
    (c : list (string * file_info)) (s : state) : state :=
  {| messages := messages s; bedrock_messages := bedrock_messages s;
     uploaded_document_content := c;
     video_job := video_job s; uploaded_files := uploaded_files s;
     heap := heap s; log := log s |}.

Definition set_video_job (j : job_slot) (s : state) : state :=
  {| messages := messages s; bedrock_messages := bedrock_messages s;
     uploaded_document_content := uploaded_document_content s;
     video_job := j; uploaded_files := uploaded_files s;
     heap := heap s; log := log s |}.

Definition set_heap (f : list wire_message → list wire_message) (s : state) : state :=
  {| messages := messages s; bedrock_messages := bedrock_messages s;
     uploaded_document_content := uploaded_document_content s;
     video_job := video_job s; uploaded_files := uploaded_files s;
     heap := f (heap s); log := log s |}.

Definition set_log (f : list event → list event) (s : state) : state :=
  {| messages := messages s; bedrock_messages := bedrock_messages s;
     uploaded_document_content := uploaded_document_content s;
     video_job := video_job s; uploaded_files := uploaded_files s;
     heap := heap s; log := f (log s) |}.

(** ** Computations

    A computation runs on a state and returns normally, raises a Python
    exception (kept as its text), or is still inside the polling loop when
    the recorded answers of the backend are used up. *)

Inductive outcome (A : Type) :=
  | Ret (a : A)
  | Raise (e : string)
  | Spin.
Arguments Ret {A} a.
Arguments Raise {A} e.
Arguments Spin {A}.

Definition M (A : Type) : Type := state → outcome A * state.

#[export] Instance M_ret : MRet M := λ A a s, (Ret a, s).
#[export] Instance M_bind : MBind M := λ A B k m s,
  match m s with
  | (Ret a, s') => k a s'
  | (Raise e, s') => (Raise e, s')
  | (Spin, s') => (Spin, s')
  end.

Definition raise {A : Type} (e : string) : M A := λ s, (Raise e, s).
Definition spin {A : Type} : M A := λ s, (Spin, s).
Definition get : M state := λ s, (Ret s, s).
Definition modify (f : state → state) : M unit := λ s, (Ret tt, f s).
Definition emit (ev : event) : M unit := modify (set_log (λ l, l ++ [ev])).
Definition ui (kind : ui_kind) (text : string) : M unit := emit (EvUi kind text).

(** The answer of a remote call: a value or an exception. *)
Inductive result (A : Type) :=
  | Ok (a : A)
  | Exn (e : string).
Arguments Ok {A} a.
Arguments Exn {A} e.

Definition answer {A : Type} (r : result A) : M A :=
  match r with
  | Ok a => mret a
  | Exn e => raise e
  end.

(** Allocation of a fresh message object, and access through an address. *)
Definition alloc (m : wire_message) : M loc :=
  λ s, (Ret (length (heap s)), set_heap (λ h, h ++ [m]) s).

Definition deref (l : loc) : M wire_message :=
  λ s, match heap s !! l with
       | Some m => (Ret m, s)
       | None => (Raise "dangling reference", s)
       end.

Definition store (l : loc) (m : wire_message) : M unit :=
  modify (set_heap (λ h, <[l := m]> h)).

Fixpoint deref_all (ls : list loc) : M (list wire_message) :=
  match ls with
  | [] => mret []
  | l :: ls' => m ← deref l; ms ← deref_all ls'; mret (m :: ms)
  end.

(** ** The collaborators of [utils.bedrock] and the remote services *)

Inductive stream_event :=
  | ContentBlockDelta (text : string)   (* has the key ["contentBlockDelta"] *)
  | OtherStreamEvent.

(** What [invoke_model] returns: a converse envelope, of which the code
    reads [["output"]["message"]["content"]], or the bytes of an image. *)
Inductive response :=
  | TextResponse (output_content : list block)
  | ImageResponse (image_data : string).

(** The methods of [BedrockHandler] that [main.py] calls. *)
Record BedrockHandler := {
  model_id : string;
  system_message : option wire_message;
  user_message : string → option string → list file → wire_message;
  assistant_message : string → wire_message;
  invoke_model : list wire_message → result response;
  invoke_model_with_stream :
    list wire_message → result (option (list stream_event));
  generate_video :
    string → option string → option (string * string) → result job_details;
}.

(** The methods of [KBHandler] that [main.py] calls. *)
Record KBHandler := {
  get_relevant_docs : string → result (list doc);
  parse_kb_output_to_string : list doc → string;
}.

(** The dict returned by [client.get_async_invoke]. *)
Record async_response := {
  resp_status : option string;
  resp_failureMessage : option string;
}.

(** What the outside world answers during one iteration of the polling
    loop: the status call, and the storage check (asked only when the
    status is a success). *)
Record poll_obs := {
  get_async_invoke : result async_response;
  check_video_exists : result (bool * option string);
}.

(** ** clear_screen (lines 17-25) *)

Definition clear_screen {P : Type} (cfg : configs P) (s : state) : state :=
  let s := set_messages
             (λ _, [ {| turn_role := "assistant";
                        turn_content := DStr (start_message cfg) |} ]) s in
  let s := set_bedrock_messages (λ _, []) s in
  let s := set_uploaded_document_content [] s in
  match video_job s with
  | JobAbsent => s
  | _ => set_video_job JobNone s
  end.

(** ** get_video_status (lines 44-60) *)

Record video_status := {
  status : string;
  completed : bool;
  failed : bool;
  error : option string;
}.

Definition get_video_status
    (client : result async_response) (invocation_arn : string) : M video_status :=
  emit (EvGetAsyncInvoke invocation_arn);;
  match client with
  | Ok response =>
      mret {| status := default "Unknown" (resp_status response);
              completed := bool_decide (resp_status response = Some "Completed");
              failed := bool_decide (resp_status response = Some "Failed");
              error := resp_failureMessage response |}
  | Exn e =>
      mret {| status := "Error";
              completed := false;
              failed := true;
              error := Some e |}
  end.

(** ** update_chat_history (lines 401-410) *)

Definition response_text (response : display) : string :=
  match response with
  | DDict text _ => text
  | DStr s => s
  end.

Definition update_chat_history (bh : BedrockHandler) (response : display) : M unit :=
  modify (set_messages
            (λ l, l ++ [ {| turn_role := "assistant"; turn_content := response |} ]));;
  l ← alloc (assistant_message bh (response_text response));
  modify (set_bedrock_messages (λ ls, ls ++ [l])).

(** ** handle_image_generation (lines 271-279) *)

Definition handle_image_generation (bh : BedrockHandler) (messages : list loc) : M unit :=
  request ← deref_all messages;
  emit (EvInvoke request);;
  r ← answer (invoke_model bh request);
  match r with
  | ImageResponse image_data =>
      ui UiImage "Generated Image";;
      update_chat_history bh
        (DDict "I've generated the image based on your prompt."
               (Some (B64 image_data)))
  | TextResponse _ => raise "TypeError"
  end.

(** ** handle_video_generation (lines 281-335) *)

Inductive loop_control := Break | Continue.

Definition current_job : M job_details :=
  s ← get;
  match video_job s with
  | JobActive job => mret job
  | _ => raise "TypeError: 'NoneType' object is not subscriptable"
  end.

Definition completed_message (job : job_details) (video_path : option string) : string :=
  "✅ Video generation completed! Video available at: s3://"
    +:+ s3_bucket job +:+ "/" +:+ py_str video_path.

Definition failed_message (st : video_status) : string :=
  "❌ Video generation failed: " +:+ py_str (error st).

(** The body of the [while True] loop, up to its [break] or to the
    [time.sleep] that ends the iteration. *)
Definition poll_step (bh : BedrockHandler) (o : poll_obs) : M loop_control :=
  job ← current_job;
  st ← get_video_status (get_async_invoke o) (invocation_arn job);
  if completed st then
    job ← current_job;
    emit (EvCheckVideo (s3_bucket job) (s3_prefix job));;
    found ← answer (check_video_exists o);
    let '(video_exists, video_path) := found in
    if (video_exists : bool) then
      let message := completed_message job video_path in
      ui UiSuccess message;;
      update_chat_history bh (DDict message None);;
      modify (set_video_job JobNone);;
      mret Break
    else
      ui UiInfo "Video processing... Waiting for S3 upload to complete...";;
      mret Continue
  else if failed st then
    let message := failed_message st in
    ui UiError message;;
    update_chat_history bh (DDict message None);;
    modify (set_video_job JobNone);;
    mret Break
  else
    ui UiInfo ("⏳ Generating Video... This can take up to 5 minutes. Status: "
               +:+ status st);;
    mret Continue.

(** The loop itself, run against the answers the world gives to the
    successive iterations. *)
Fixpoint poll_loop (bh : BedrockHandler) (polls : list poll_obs) : M unit :=
  match polls with
  | [] => spin
  | o :: polls' =>
      c ← poll_step bh o;
      match c with
      | Break => mret tt
      | Continue => emit (EvSleep 10);; poll_loop bh polls'
      end
  end.

Definition handle_video_generation
    (bh : BedrockHandler) (polls : list poll_obs)
    (prompt : string) (s3_uri : option string) (uploaded_file : option file) : M unit :=
  s ← get;
  (if video_job s is JobAbsent then modify (set_video_job JobNone) else mret tt);;
  s ← get;
  (if video_job s is JobActive _ then mret tt
   else
     ui UiInfo "Starting video generation. This may take a few minutes...";;
     let image_data := (λ f, (file_bytes f, file_suffix f)) <$> uploaded_file in
     emit (EvGenerateVideo prompt s3_uri image_data);;
     job_details ← answer (generate_video bh prompt s3_uri image_data);
     modify (set_video_job (JobActive job_details)));;
  poll_loop bh polls.

(** ** handle_text_generation (lines 337-399) *)

(** [blocks[0]["text"]], read. *)
Definition first_text (blocks : list block) : M string :=
  match blocks with
  | [] => raise "IndexError: list index out of range"
  | TextBlock text :: _ => mret text
  | MediaBlock _ _ :: _ => raise "KeyError: 'text'"
  end.

(** [m["content"][0]["text"] = text], on the message object itself.  It
    is reached only after [first_text] has read that block. *)
Definition set_first_text (text : string) (m : wire_message) : wire_message :=
  match content m with
  | [] => m
  | _ :: blocks =>
      {| role := role m; content := TextBlock text :: blocks;
         s3_uri_key := s3_uri_key m |}
  end.

(** The expander that lists the uploaded documents. *)
Definition document_status (entry : string * file_info) : M unit :=
  let '(file_name, file_info) := entry in
  if processed file_info then
    ui UiSuccess ("✅ " +:+ file_name +:+ " (" +:+ extension file_info +:+ ", "
                  +:+ pretty (size file_info) +:+ " bytes)")
  else
    ui UiError ("❌ " +:+ file_name +:+ " could not be processed").

Fixpoint for_each {A : Type} (body : A → M unit) (l : list A) : M unit :=
  match l with
  | [] => mret tt
  | x :: l' => body x;; for_each body l'
  end.

(** The consumer of the stream: every event re-renders the text so far. *)
Fixpoint consume_stream (streamed_response : string) (stream : list stream_event)
    : M string :=
  match stream with
  | [] => mret streamed_response
  | ev :: stream' =>
      let streamed_response :=
        match ev with
        | ContentBlockDelta text => streamed_response +:+ text
        | OtherStreamEvent => streamed_response
        end in
      ui UiMarkdown streamed_response;;
      consume_stream streamed_response stream'
  end.

(** [enumerate(docs)]. *)
Definition enumerate {A : Type} (l : list A) : list (nat * A) :=
  imap (λ i x, (i, x)) l.

(** Lines 360-364: the system prompt goes into the first message, when
    that message is a user message.  [full_messages] is a copy of the
    list, so its elements are the message objects of the caller. *)
Definition prepend_system_prompt
    (system_msg : option wire_message) (full_messages : list loc) : M unit :=
  match system_msg, full_messages with
  | Some system_msg, l0 :: _ =>
      m0 ← deref l0;
      if bool_decide (role m0 = "user") then
        sys_content ← first_text (content system_msg);
        user_content ← first_text (content m0);
        store l0 (set_first_text (sys_content +:+ blank_line +:+ user_content) m0)
      else mret tt
  | _, _ => mret tt
  end.

(** Lines 350-358: the status of the uploaded documents. *)
Definition document_panel : M unit :=
  s ← get;
  if bool_decide (uploaded_files s ≠ [])
     && bool_decide (uploaded_document_content s ≠ []) then
    ui UiExpander "📄 Document Processing Status";;
    ui UiWrite "The following documents are being used in this conversation:";;
    for_each document_status (uploaded_document_content s)
  else mret tt.

(** Lines 366-388: the call of the model, streamed or not.  The request
    that leaves the process holds the messages as they are at that time. *)
Definition generate_text
    (bh : BedrockHandler) (system_msg : option wire_message)
    (full_messages : list loc) (streaming : bool) : M display :=
  if streaming then
    request ← deref_all full_messages;
    emit (EvInvokeStream request);;
    stream ← answer (invoke_model_with_stream bh request);
    streamed_response ←
      match stream with
      | Some stream => consume_stream "" stream
      | None => mret ""
      end;
    mret (DDict streamed_response None)
  else
    full ← deref_all full_messages;
    let converse_messages :=
      if py_in "anthropic" (model_id bh)
      then option_list system_msg ++ full
      else full in
    emit (EvInvoke converse_messages);;
    response ← answer (invoke_model bh converse_messages);
    full_response ←
      match response with
      | TextResponse output_content => first_text output_content
      | ImageResponse _ => raise "TypeError"
      end;
    ui UiWrite full_response;;
    mret (DStr full_response).

(** Lines 390-397: the sources found in the knowledge base.  The four
    widgets drawn for a document are one event. *)
Definition sources_panel (docs : list doc) : M unit :=
  if bool_decide (docs ≠ []) then
    ui UiExpander "📚 Knowledge Base Sources Used";;
    ui UiInfo ("Found " +:+ pretty (length docs)
               +:+ " relevant documents in knowledge base");;
    for_each (λ '(i, d), emit (EvUiSource i d)) (enumerate docs)
  else mret tt.

Definition handle_text_generation
    (bh : BedrockHandler) (messages : list loc) (streaming : bool)
    (docs : list doc) : M unit :=
  let full_messages := messages in          (* messages.copy() *)
  let system_msg := system_message bh in
  document_panel;;
  prepend_system_prompt system_msg full_messages;;
  full_response ← generate_text bh system_msg full_messages streaming;
  sources_panel docs;;
  update_chat_history bh full_response.

(** ** One user turn of main (lines 224-269) *)

Definition retrieve (kb : KBHandler) (model_id prompt : string) : M (list doc) :=
  if negb (py_in "nova-canvas" model_id || py_in "nova-reel" model_id) then
    emit (EvKbQuery prompt);;
    answer (get_relevant_docs kb prompt)
  else mret [].

Definition on_prompt
    (bh : BedrockHandler) (kb : KBHandler) (polls : list poll_obs)
    (model_id : string) (streaming_on : bool) (s3_uri : option string)
    (prompt : string) : M unit :=
  modify (set_messages
            (λ l, l ++ [ {| turn_role := "user"; turn_content := DStr prompt |} ]));;
  ui UiWrite prompt;;
  if py_in "nova-reel" model_id && negb (truthy s3_uri) then
    ui UiError "Please provide an S3 output location for video generation"
  else
    docs ← retrieve kb model_id prompt;
    let context :=
      if bool_decide (docs ≠ []) then Some (parse_kb_output_to_string kb docs)
      else None in
    s ← get;
    let user_msg := user_message bh prompt context (uploaded_files s) in
    let user_msg :=
      if py_in "nova-reel" model_id
      then {| role := role user_msg; content := content user_msg;
              s3_uri_key := s3_uri |}
      else user_msg in
    l ← alloc user_msg;
    modify (set_bedrock_messages (λ ls, ls ++ [l]));;
    s ← get;
    if py_in "nova-canvas" model_id then
      handle_image_generation bh (bedrock_messages s)
    else if py_in "nova-reel" model_id then
      handle_video_generation bh polls prompt s3_uri (head (uploaded_files s))
    else
      handle_text_generation bh (bedrock_messages s) streaming_on docs.

(** * Vocabulary of the properties *)

(** ** Jobs, reports and what the backend answers *)

(** The session holds a job that is being polled. *)
Definition active (j : job_slot) : bool :=
  match j with
  | JobActive _ => true
  | _ => false
  end.

(** The display message of a terminal report. *)
Definition report (text : string) : turn :=
  {| turn_role := "assistant"; turn_content := DDict text None |}.

(** The state after a terminal report: the report is appended to both
    histories, the job is cleared and the events [evs] are logged. *)
Definition reported (bh : BedrockHandler) (text : string) (evs : list event)
    (s : state) : state :=
  {| messages := messages s ++ [report text];
     bedrock_messages := bedrock_messages s ++ [length (heap s)];
     uploaded_document_content := uploaded_document_content s;
     video_job := JobNone;
     uploaded_files := uploaded_files s;
     heap := heap s ++ [assistant_message bh text];
     log := log s ++ evs |}.

(** The state after events [evs] have been logged and nothing else. *)
Definition logged (evs : list event) (s : state) : state :=
  set_log (λ l, l ++ evs) s.

(** What the backend told about the job in one iteration. *)
Definition backend_success (o : poll_obs) : bool :=
  match get_async_invoke o with
  | Ok r => bool_decide (resp_status r = Some "Completed")
  | Exn _ => false
  end.

(** The failure the status call amounts to, with the error it carries. *)
Definition backend_failure (o : poll_obs) : option (option string) :=
  match get_async_invoke o with
  | Ok r => if bool_decide (resp_status r = Some "Failed")
            then Some (resp_failureMessage r) else None
  | Exn e => Some (Some e)
  end.

(** The status string shown while the job runs. *)
Definition backend_status_text (o : poll_obs) : string :=
  match get_async_invoke o with
  | Ok r => default "Unknown" (resp_status r)
  | Exn _ => "Error"
  end.

(** An iteration is absorbed when it neither reports nor touches the job
    and the loop goes on to the next one. *)
Definition absorbed (bh : BedrockHandler) (o : poll_obs) (s : state) : Prop :=
  ∃ s', poll_step bh o s = (Ret Continue, s')
        ∧ video_job s' = video_job s
        ∧ messages s' = messages s
        ∧ bedrock_messages s' = bedrock_messages s.

(** An iteration ends the job with the report [text]. *)
Definition ends_with (bh : BedrockHandler) (o : poll_obs) (s : state)
    (text : string) : Prop :=
  ∃ s', poll_step bh o s = (Ret Break, s')
        ∧ video_job s' = JobNone
        ∧ messages s' = messages s ++ [report text].

(** The five ways an iteration can go, by what the world answers. *)
Inductive poll_case (bh : BedrockHandler) (o : poll_obs) (s : state)
    (job : job_details) : outcome loop_control * state → Prop :=
  | case_completed video_path :
      backend_success o = true →
      check_video_exists o = Ok (true, video_path) →
      poll_case bh o s job
        (Ret Break,
         reported bh (completed_message job video_path)
           [EvGetAsyncInvoke (invocation_arn job);
            EvCheckVideo (s3_bucket job) (s3_prefix job);
            EvUi UiSuccess (completed_message job video_path)] s)
  | case_waiting_artifact video_path :
      backend_success o = true →
      check_video_exists o = Ok (false, video_path) →
      poll_case bh o s job
        (Ret Continue,
         logged
           [EvGetAsyncInvoke (invocation_arn job);
            EvCheckVideo (s3_bucket job) (s3_prefix job);
            EvUi UiInfo "Video processing... Waiting for S3 upload to complete..."] s)
  | case_artifact_error e :
      backend_success o = true →
      check_video_exists o = Exn e →
      poll_case bh o s job
        (Raise e,
         logged
           [EvGetAsyncInvoke (invocation_arn job);
            EvCheckVideo (s3_bucket job) (s3_prefix job)] s)
  | case_failed err :
      backend_success o = false →
      backend_failure o = Some err →
      poll_case bh o s job
        (Ret Break,
         reported bh ("❌ Video generation failed: " +:+ py_str err)
           [EvGetAsyncInvoke (invocation_arn job);
            EvUi UiError ("❌ Video generation failed: " +:+ py_str err)] s)
  | case_running :
      backend_success o = false →
      backend_failure o = None →
      poll_case bh o s job
        (Ret Continue,
         logged
           [EvGetAsyncInvoke (invocation_arn job);
            EvUi UiInfo
              ("⏳ Generating Video... This can take up to 5 minutes. Status: "
               +:+ backend_status_text o)] s).

(** ** Sample collaborators and states *)

(** A wire message with one text block. *)
Definition text_message (r text : string) : wire_message :=
  {| role := r; content := [TextBlock text]; s3_uri_key := None |}.

Definition sample_job : job_details :=
  {| invocation_arn := "arn:aws:bedrock:us-east-1:1:async-invoke/j1";
     s3_bucket := "videos"; s3_prefix := "j1" |}.

Definition sample_handler (id : string) (system_prompt : option string)
    : BedrockHandler :=
  {| model_id := id;
     system_message := text_message "system" <$> system_prompt;
     user_message := λ prompt context _,
       text_message "user" (from_option (λ c, c +:+ prompt) prompt context);
     assistant_message := text_message "assistant";
     invoke_model := λ _, Ok (TextResponse [TextBlock "Hello!"]);
     invoke_model_with_stream := λ _,
       Ok (Some [ContentBlockDelta "Hel"; OtherStreamEvent; ContentBlockDelta "lo!"]);
     generate_video := λ _ _ _, Ok sample_job |}.

Definition sample_kb : KBHandler :=
  {| get_relevant_docs := λ _, Ok [];
     parse_kb_output_to_string := λ _, "" |}.

Definition reel_handler : BedrockHandler :=
  sample_handler "amazon.nova-reel-v1:0" None.

Definition idle_state : state :=
  {| messages := [ {| turn_role := "assistant"; turn_content := DStr "Hi" |} ];
     bedrock_messages := [];
     uploaded_document_content := [];
     video_job := JobNone;
     uploaded_files := [];
     heap := [];
     log := [] |}.

(** A session whose video job has been submitted and is being polled. *)
Definition polling_state : state :=
  {| messages := [ {| turn_role := "assistant"; turn_content := DStr "Hi" |};
                   {| turn_role := "user"; turn_content := DStr "a cat" |} ];
     bedrock_messages := [0];
     uploaded_document_content := [];
     video_job := JobActive sample_job;
     uploaded_files := [];
     heap := [ {| role := "user"; content := [TextBlock "a cat"];
                  s3_uri_key := Some "s3://videos" |} ];
     log := [] |}.

Definition obs_status (st : string) (failure : option string)
    (artifact : bool * option string) : poll_obs :=
  {| get_async_invoke :=
       Ok {| resp_status := Some st; resp_failureMessage := failure |};
     check_video_exists := Ok artifact |}.

Definition obs_transport_error : poll_obs :=
  {| get_async_invoke := Exn "Read timed out";
     check_video_exists := Ok (false, None) |}.

Definition obs_in_progress : poll_obs :=
  obs_status "InProgress" None (false, None).

Definition obs_completed_no_artifact : poll_obs :=
  obs_status "Completed" None (false, None).

Definition obs_completed : poll_obs :=
  obs_status "Completed" None (true, Some "j1/output.mp4").

Definition obs_failed : poll_obs :=
  obs_status "Failed" (Some "content filtered") (false, None).

(** The texts a terminal report can have. *)
Definition terminal_text (job : job_details) (text : string) : Prop :=
  (∃ video_path, text = completed_message job video_path)
  ∨ (∃ err, text = "❌ Video generation failed: " +:+ py_str err).

(** An observation that ends the loop, and one that makes it wait. *)
Definition obs_terminal (o : poll_obs) : bool :=
  if backend_success o
  then match check_video_exists o with Ok (true, _) => true | _ => false end
  else bool_decide (backend_failure o ≠ None).

Definition obs_waiting (o : poll_obs) : bool :=
  if backend_success o
  then match check_video_exists o with Ok (false, _) => true | _ => false end
  else bool_decide (backend_failure o = None).

(** What a run of the loop leaves behind: one report and no job when it
    returns, no report and the same job when it does not. *)
Definition loop_post (job : job_details) (s : state)
    (r : outcome unit * state) : Prop :=
  match r with
  | (Ret _, s') =>
      (∃ text, terminal_text job text
               ∧ messages s' = messages s ++ [report text])
      ∧ video_job s' = JobNone
  | (_, s') => messages s' = messages s ∧ video_job s' = JobActive job
  end.

Definition image_of (uploaded_file : option file) : option (string * string) :=
  (λ f, (file_bytes f, file_suffix f)) <$> uploaded_file.

(** Without one it submits the request and, when the backend accepts it,
    polls the job it got. *)
Definition submitted (prompt : string) (s3_uri : option string)
    (file : option file) (job : job_details) (s : state) : state :=
  set_video_job (JobActive job)
    (logged [EvUi UiInfo "Starting video generation. This may take a few minutes...";
             EvGenerateVideo prompt s3_uri (image_of file)] s).

(** What a run of the handler leaves behind, seen from the state [s] it
    started in: when it returns, one report more and no job, so that the
    next request is submitted and its job polled; otherwise no report. *)
Definition handler_post (bh : BedrockHandler) (s : state)
    (r : outcome unit * state) : Prop :=
  match r with
  | (Ret _, s') =>
      (∃ job text, terminal_text job text
                   ∧ messages s' = messages s ++ [report text])
      ∧ video_job s' = JobNone
      ∧ (∀ polls2 prompt2 s3_uri2 file2 job2,
           generate_video bh prompt2 s3_uri2 (image_of file2) = Ok job2 →
           handle_video_generation bh polls2 prompt2 s3_uri2 file2 s'
             = poll_loop bh polls2 (submitted prompt2 s3_uri2 file2 job2 s')
           ∧ video_job (submitted prompt2 s3_uri2 file2 job2 s') = JobActive job2)
  | (_, s') => messages s' = messages s
  end.

(** ** Invariants *)

(** [keeps I m]: whatever its outcome, [m] leaves a state in [I] in [I]. *)
Definition keeps (I : state → Prop) {A : Type} (m : M A) : Prop :=
  ∀ s, I s → I (m s).2.

(** An invariant that does not mind the events in [Q], new messages at the
    end of the histories, new objects, or a change of the job. *)
Class Stable (I : state → Prop) (Q : event → Prop) : Prop := {
  stable_log s ev : Q ev → I s → I (set_log (λ l, l ++ [ev]) s);
  stable_messages s t : I s → I (set_messages (λ l, l ++ [t]) s);
  stable_bedrock_messages s l :
    I s → I (set_bedrock_messages (λ ls, ls ++ [l]) s);
  stable_alloc s m : I s → I (set_heap (λ h, h ++ [m]) s);
  stable_video_job s j : I s → I (set_video_job j s);
}.

(** The events of the polling loop. *)
Definition polling_event (ev : event) : Prop :=
  match ev with
  | EvGetAsyncInvoke _ | EvCheckVideo _ _ | EvSleep _ | EvUi _ _ => True
  | _ => False
  end.

(** The trace only grows, by events in [Q]. *)
Definition log_extends (l0 : list event) (Q : event → Prop) (s : state) : Prop :=
  ∃ evs, log s = l0 ++ evs ∧ Forall Q evs.

(** The first stored wire message is the object at [l0], a user message
    whose first block is the text [T]. *)
Definition first_user_text (l0 : loc) (T : string) (bs : list block)
    (s : state) : Prop :=
  (∃ rest, bedrock_messages s = l0 :: rest)
  ∧ ∃ m, heap s !! l0 = Some m ∧ role m = "user" ∧ content m = TextBlock T :: bs.

(** The events a run added to the trace. *)
Definition new_events (s s' : state) : list event :=
  drop (length (log s)) (log s').

Definition is_error_event (ev : event) : bool :=
  match ev with
  | EvUi UiError _ => true
  | _ => false
  end.

(** The run surfaced an error: it raised, or it showed an error box. *)
Definition error_surfaced (s : state) (r : outcome unit * state) : bool :=
  match r.1 with
  | Raise _ => true
  | _ => existsb is_error_event (new_events s r.2)
  end.

(** The claim as the specification words it: the request is refused with
    an error and the job is left as it was. *)
Definition rejected_in_progress (s : state) (r : outcome unit * state) : Prop :=
  error_surfaced s r = true ∧ video_job r.2 = video_job s.

Definition is_kb_query (ev : event) : bool :=
  match ev with
  | EvKbQuery _ => true
  | _ => false
  end.

(** [reaches I J m]: a run of [m] that starts in [I] and returns ends in [J]. *)
Definition reaches (I J : state → Prop) {A : Type} (m : M A) : Prop :=
  ∀ s, I s → ∀ a s', m s = (Ret a, s') → J s'.

(** A session that holds one user message, "hi", about to be answered. *)
Definition first_turn_state : state :=
  {| messages := [ {| turn_role := "assistant"; turn_content := DStr "Hi" |};
                   {| turn_role := "user"; turn_content := DStr "hi" |} ];
     bedrock_messages := [0];
     uploaded_document_content := [];
     video_job := JobAbsent;
     uploaded_files := [];
     heap := [text_message "user" "hi"];
     log := [] |}.

Definition claude_handler : BedrockHandler :=
  sample_handler "anthropic.claude-3-sonnet" (Some "Be brief.").

(** ** More of the sources, and the vocabulary of their properties *)

(** The seconds a trace spends in [time.sleep]. *)
Fixpoint slept (evs : list event) : nat :=
  match evs with
  | [] => 0
  | EvSleep n :: evs' => n + slept evs'
  | _ :: evs' => slept evs'
  end.

Definition is_storage_check (ev : event) : bool :=
  match ev with
  | EvCheckVideo _ _ => true
  | _ => false
  end.

(** A status answer without a status, though with a failure message and
    with the artifact in place. *)
Definition obs_no_status : poll_obs :=
  {| get_async_invoke :=
       Ok {| resp_status := None; resp_failureMessage := Some "quota" |};
     check_video_exists := Ok (true, Some "j1/output.mp4") |}.




(** The values of the objects at the addresses [ls], when all exist. *)
Definition snapshot (s : state) (ls : list loc) : option (list wire_message) :=
  mapM (λ l, heap s !! l) ls.

(** The two histories and the number of message objects. *)
Definition histories (s : state) : list turn * list loc * nat :=
  (messages s, bedrock_messages s, length (heap s)).

(** [quiet m]: [m] leaves the histories alone and comes back. *)
Definition quiet {A : Type} (m : M A) : Prop :=
  ∀ s, histories (m s).2 = histories s ∧ (m s).1 ≠ Spin.

(** What the text handler leaves behind, seen from the histories [h] it
    started with: the answer at the end of both when it returns, nothing
    when it raises; it always comes back. *)
Definition text_post (bh : BedrockHandler) (h : list turn * list loc * nat)
    (r : outcome unit * state) : Prop :=
  match r with
  | (Ret _, s') =>
      ∃ response,
        messages s'
          = h.1.1 ++ [ {| turn_role := "assistant"; turn_content := response |} ]
        ∧ bedrock_messages s' = h.1.2 ++ [h.2]
        ∧ heap s' !! h.2 = Some (assistant_message bh (response_text response))
  | (Raise _, s') => messages s' = h.1.1 ∧ bedrock_messages s' = h.1.2
  | (Spin, _) => False
  end.

(** The state in which the text handler is called: the prompt is in the
    display history, the index has been asked, and the new user message is
    an object of its own at the end of the wire history. *)
Definition user_stored (bh : BedrockHandler) (kb : KBHandler)
    (prompt : string) (docs : list doc) (s : state) : state :=
  {| messages := messages s
                 ++ [ {| turn_role := "user"; turn_content := DStr prompt |} ];
     bedrock_messages := bedrock_messages s ++ [length (heap s)];
     uploaded_document_content := uploaded_document_content s;
     video_job := video_job s;
     uploaded_files := uploaded_files s;
     heap := heap s
             ++ [ user_message bh prompt
                    (if bool_decide (docs ≠ [])
                     then Some (parse_kb_output_to_string kb docs) else None)
                    (uploaded_files s) ];
     log := log s ++ [EvUi UiWrite prompt; EvKbQuery prompt] |}.

(** What a text turn leaves behind, seen from the state [s] it started
    in. *)
Definition text_turn_post (bh : BedrockHandler) (kb : KBHandler)
    (prompt : string) (s : state) (r : outcome unit * state) : Prop :=
  match r with
  | (Ret _, s') =>
      ∃ response,
        messages s'
          = messages s
            ++ [ {| turn_role := "user"; turn_content := DStr prompt |};
                 {| turn_role := "assistant"; turn_content := response |} ]
        ∧ bedrock_messages s'
          = bedrock_messages s ++ [length (heap s); S (length (heap s))]
        ∧ heap s' !! S (length (heap s))
          = Some (assistant_message bh (response_text response))
  | (Raise e, s') =>
      messages s'
        = messages s ++ [ {| turn_role := "user"; turn_content := DStr prompt |} ]
      ∧ (bedrock_messages s' = bedrock_messages s
         ∧ get_relevant_docs kb prompt = Exn e
         ∨ bedrock_messages s' = bedrock_messages s ++ [length (heap s)])
  | (Spin, _) => False
  end.

Definition failing_handler : BedrockHandler :=
  {| model_id := "anthropic.claude-3-sonnet";
     system_message := None;
     user_message := λ prompt _ _, text_message "user" prompt;
     assistant_message := text_message "assistant";
     invoke_model := λ _, Exn "ThrottlingException";
     invoke_model_with_stream := λ _, Exn "ThrottlingException";
     generate_video := λ _ _ _, Exn "ThrottlingException" |}.

Definition document_status_event (entry : string * file_info) : event :=
  if processed entry.2 then
    EvUi UiSuccess ("✅ " +:+ entry.1 +:+ " (" +:+ extension entry.2 +:+ ", "
                    +:+ pretty (size entry.2) +:+ " bytes)")
  else
    EvUi UiError ("❌ " +:+ entry.1 +:+ " could not be processed").

(** What the document panel draws in a state. *)
Definition document_events (s : state) : list event :=
  if bool_decide (uploaded_files s ≠ [])
     && bool_decide (uploaded_document_content s ≠ []) then
    [EvUi UiExpander "📄 Document Processing Status";
     EvUi UiWrite "The following documents are being used in this conversation:"]
    ++ (document_status_event <$> uploaded_document_content s)
  else [].

Definition is_model_call (ev : event) : bool :=
  match ev with
  | EvInvoke _ | EvInvokeStream _ | EvGenerateVideo _ _ _ => true
  | _ => false
  end.

(** A session that starts with an image block, and a handler with a
    system prompt. *)
Definition media_first_state : state :=
  {| messages := [ {| turn_role := "user"; turn_content := DStr "what is this" |} ];
     bedrock_messages := [0];
     uploaded_document_content := [];
     video_job := JobAbsent;
     uploaded_files := [];
     heap := [ {| role := "user";
                  content := [MediaBlock "image" "png"; TextBlock "what is this"];
                  s3_uri_key := None |} ];
     log := [] |}.

(** The address of the first stored wire message once the turn has
    stored its user message. *)
Definition first_loc (s : state) : loc :=
  default (length (heap s)) (head (bedrock_messages s)).

(** Every object of [h0] other than the one at [l0] is still there. *)
Definition untouched (h0 : list wire_message) (l0 : loc) (s : state) : Prop :=
  ∀ l m, l ≠ l0 → h0 !! l = Some m → heap s !! l = Some m.

(** Two turns have been stored; the second turn of the streamed
    conversation leaves the assistant message at address 1 as it is. *)
Definition two_turn_state : state :=
  {| messages := [ {| turn_role := "user"; turn_content := DStr "hi" |};
                   {| turn_role := "assistant"; turn_content := DStr "Hello!" |} ];
     bedrock_messages := [0; 1];
     uploaded_document_content := [];
     video_job := JobAbsent;
     uploaded_files := [];
     heap := [text_message "user" "hi"; text_message "assistant" "Hello!"];
     log := [] |}.

(** The request of an image turn: the stored messages and the new user
    message, which is built without context. *)
Definition image_request (bh : BedrockHandler) (prompt : string) (s : state)
    (old : list wire_message) : list wire_message :=
  old ++ [user_message bh prompt None (uploaded_files s)].

(** The state when the image model has been asked. *)
Definition image_asked (bh : BedrockHandler) (prompt : string) (s : state)
    (old : list wire_message) : state :=
  {| messages := messages s
                 ++ [ {| turn_role := "user"; turn_content := DStr prompt |} ];
     bedrock_messages := bedrock_messages s ++ [length (heap s)];
     uploaded_document_content := uploaded_document_content s;
     video_job := video_job s;
     uploaded_files := uploaded_files s;
     heap := heap s ++ [user_message bh prompt None (uploaded_files s)];
     log := log s ++ [EvUi UiWrite prompt;
                      EvInvoke (image_request bh prompt s old)] |}.

(** The state when it has answered with the image [data]. *)
Definition image_answered (bh : BedrockHandler) (prompt : string) (s : state)
    (old : list wire_message) (data : string) : state :=
  {| messages :=
       messages s
       ++ [ {| turn_role := "user"; turn_content := DStr prompt |};
            {| turn_role := "assistant";
               turn_content :=
                 DDict "I've generated the image based on your prompt."
                       (Some (B64 data)) |} ];
     bedrock_messages :=
       bedrock_messages s ++ [length (heap s); S (length (heap s))];
     uploaded_document_content := uploaded_document_content s;
     video_job := video_job s;
     uploaded_files := uploaded_files s;
     heap := heap s
             ++ [ user_message bh prompt None (uploaded_files s);
                  assistant_message bh
                    "I've generated the image based on your prompt." ];
     log := log s ++ [EvUi UiWrite prompt;
                      EvInvoke (image_request bh prompt s old);
                      EvUi UiImage "Generated Image"] |}.

Definition image_turn_result (bh : BedrockHandler) (prompt : string) (s : state)
    (old : list wire_message) : outcome unit * state :=
  match invoke_model bh (image_request bh prompt s old) with
  | Ok (ImageResponse data) => (Ret tt, image_answered bh prompt s old data)
  | Ok (TextResponse _) => (Raise "TypeError", image_asked bh prompt s old)
  | Exn e => (Raise e, image_asked bh prompt s old)
  end.

Definition canvas_handler : BedrockHandler :=
  {| model_id := "amazon.nova-canvas-v1:0";
     system_message := None;
     user_message := λ prompt _ _, text_message "user" prompt;
     assistant_message := text_message "assistant";
     invoke_model := λ _, Ok (ImageResponse "PNG...");
     invoke_model_with_stream := λ _, Exn "ValidationException";
     generate_video := λ _ _ _, Exn "ValidationException" |}.

(** A Python dict with string keys, in insertion order: [d[key] = v]
    replaces the value of a key that is there and adds a new key at the end. *)
Fixpoint dict_set {V : Type} (key : string) (v : V) (d : list (string * V))
    : list (string * V) :=
  match d with
  | [] => [(key, v)]
  | (k, v') :: d' =>
      if bool_decide (key = k) then (key, v) :: d'
      else (k, v') :: dict_set key v d'
  end.

(** [d.get(key)]. *)
Fixpoint dict_get {V : Type} (key : string) (d : list (string * V)) : option V :=
  match d with
  | [] => None
  | (k, v) :: d' => if bool_decide (key = k) then Some v else dict_get key d'
  end.

(** [list(d.keys())]. *)
Definition dict_keys {V : Type} (d : list (string * V)) : list string :=
  fst <$> d.

(** An entry of ["knowledgeBaseSummaries"]. *)
Record kb_summary := { name : string; knowledgeBaseId : string }.

(** The answer of [list_knowledge_bases]. *)
Record kb_listing := { knowledgeBaseSummaries : list kb_summary }.

(** get_all_kbs (lines 27-32): the dict comprehension inserts the entries
    from left to right. *)
Definition get_all_kbs (all_kb : kb_listing) : list (string * string) :=
  foldl (λ d kb, dict_set (name kb) (knowledgeBaseId kb) d) []
        (knowledgeBaseSummaries all_kb).

(** main, lines 190-194: the knowledge base behind the choice of the
    sidebar. *)
Definition selected_kb (all_kbs : list (string * string)) (kb_selection : string)
    : result (option string) :=
  if bool_decide (kb_selection ≠ "None") then
    match dict_get kb_selection all_kbs with
    | Some kb_id => Ok (Some kb_id)
    | None => Exn ("KeyError: " +:+ kb_selection)
    end
  else Ok None.

(** The identifier recorded for a name: that of the last summary with
    this name. *)
Definition last_id (n : string) (summaries : list kb_summary) : option string :=
  knowledgeBaseId <$> last (List.filter (λ kb, bool_decide (name kb = n)) summaries).

(** The bundle that belongs to the handler [main] picks for a turn. *)
Definition bundle_of {P : Type} (cfg : configs P) (model_id : string) : P :=
  match select_protocol model_id with
  | ImageProtocol => nova_canvas_params cfg
  | VideoProtocol => nova_reel_params cfg
  | TextProtocol =>
      if py_in "anthropic" model_id then claude_model_params cfg
      else nova_model_params cfg
  end.

(** Every object of [h0] is still there, unchanged. *)
Definition intact (h0 : list wire_message) (s : state) : Prop :=
  ∀ l m, h0 !! l = Some m → heap s !! l = Some m.

Definition set_uploaded_files (files : list file) (s : state) : state :=
  {| messages := messages s; bedrock_messages := bedrock_messages s;
     uploaded_document_content := uploaded_document_content s;
     video_job := video_job s; uploaded_files := files;
     heap := heap s; log := log s |}.

(** [l1 == l2] on Python lists, over the equality of the elements. *)
Fixpoint list_eqb {A : Type} (eqb : A → A → bool) (l1 l2 : list A) : bool :=
  match l1, l2 with
  | [], [] => true
  | x :: l1', y :: l2' => eqb x y && list_eqb eqb l1' l2'
  | _, _ => false
  end.

(** What the widgets of the sidebar return in one run of the script. *)
Record widgets := {
  w_region : string;        (* selectbox "Choose Region" *)
  w_model : string;         (* selectbox "Choose Bedrock model" *)
  w_streaming : bool;       (* toggle "Streaming" *)
  w_kb : string;            (* selectbox "Choose a Knowledge base" *)
  w_bucket_path : string;   (* text_input "S3 Output Location" *)
  w_files : list file;      (* file_uploader *)
}.

(** The entry written for a PDF (lines 128-132). *)
Definition pdf_info (file_extension : string) (f : file) : file_info :=
  {| extension := file_extension;
     size := String.length (file_bytes f);
     processed := true |}.

(** The body of the loop over the uploaded files (lines 119-138).
    [lower] is [str.lower].  Nothing inside the [try] of lines 125-135 can
    raise here: the bytes of the file are at hand and the record of documents
    exists, [main] having created it in the first run, where nothing is
    uploaded yet. *)
Definition process_upload (lower : string → string) (f : file) : M unit :=
  let file_extension := lower (file_suffix f) in
  if bool_decide (file_extension = "pdf") then
    ui UiExpander ("Uploaded: " +:+ file_name f);;
    ui UiInfo "PDF detected. Processing content...";;
    modify (λ s, set_uploaded_document_content
                   (dict_set (file_name f) (pdf_info file_extension f)
                             (uploaded_document_content s)) s);;
    ui UiSuccess ("✅ PDF processed ("
                  +:+ pretty (String.length (file_bytes f)) +:+ " bytes)")
  else
    ui UiExpander ("Uploaded: " +:+ file_name f);;
    ui UiInfo ("File type: " +:+ file_extension).

(** The widgets answer with [w].  [lower] is [str.lower], [file_eqb] the
    test Python applies to two uploaded files when it compares the lists, and
    [account] the answer of [get_caller_identity().get('Account')], asked for
    a video model only. *)
Definition setup_sidebar
    (lower : string → string) (file_eqb : file → file → bool)
    (w : widgets) (account : result (option string))
    : M (string * string * bool * string * option string) :=
  let selected_region := w_region w in
  let selected_model := w_model w in
  let is_image_model := py_in "Nova Canvas" selected_model in
  let is_video_model := py_in "Nova Reel" selected_model in
  let streaming_on :=
    if negb (is_image_model || is_video_model) then w_streaming w else false in
  let kb_selection :=
    if negb (is_image_model || is_video_model) then w_kb w else "None" in
  s3_uri ←
    (if is_video_model then
       account_id ← answer account;
       let default_bucket :=
         "bedrock-video-generation-us-east-1-" +:+ py_str account_id in
       let bucket_path := w_bucket_path w in
       mret (Some ("s3://" +:+ (if bucket_path is EmptyString
                                then default_bucket else bucket_path)))
     else mret None);
  (if is_video_model then modify (set_uploaded_files (w_files w))
   else if is_image_model then modify (set_uploaded_files (w_files w))
   else
     let uploaded_files' := w_files w in
     s ← get;
     if bool_decide (uploaded_files' ≠ [])
        && negb (list_eqb file_eqb uploaded_files' (uploaded_files s)) then
       modify (set_uploaded_files uploaded_files');;
       for_each (process_upload lower) uploaded_files'
     else modify (set_uploaded_files uploaded_files'));;
  mret (selected_region, selected_model, streaming_on, kb_selection, s3_uri).

(** The dict of documents after the files [fs] have been processed. *)
Definition record_pdf (lower : string → string)
    (d : list (string * file_info)) (f : file) : list (string * file_info) :=
  if bool_decide (lower (file_suffix f) = "pdf")
  then dict_set (file_name f) (pdf_info (lower (file_suffix f)) f) d
  else d.

(** What the loop body draws for a file. *)
Definition upload_events (lower : string → string) (f : file) : list event :=
  if bool_decide (lower (file_suffix f) = "pdf") then
    [EvUi UiExpander ("Uploaded: " +:+ file_name f);
     EvUi UiInfo "PDF detected. Processing content...";
     EvUi UiSuccess ("✅ PDF processed ("
                     +:+ pretty (String.length (file_bytes f)) +:+ " bytes)")]
  else
    [EvUi UiExpander ("Uploaded: " +:+ file_name f);
     EvUi UiInfo ("File type: " +:+ lower (file_suffix f))].

(** Whether this run of the sidebar processes the uploaded files. *)
Definition processes_upload (file_eqb : file → file → bool) (w : widgets)
    (s : state) : bool :=
  negb (py_in "Nova Canvas" (w_model w) || py_in "Nova Reel" (w_model w))
  && bool_decide (w_files w ≠ [])
  && negb (list_eqb file_eqb (w_files w) (uploaded_files s)).

(** The widgets of a run with the video model chosen and the text box of
    the output location emptied. *)
Definition video_widgets : widgets :=
  {| w_region := "N. Virginia"; w_model := "Amazon Nova Reel";
     w_streaming := true; w_kb := "docs"; w_bucket_path := "";
     w_files := [] |}.

Definition same_name (f1 f2 : file) : bool :=
  bool_decide (file_name f1 = file_name f2).






(** The dict under ["ingestionJob"]: its ["status"] and its identifier. *)
Record ingestion_job := { ij_status : string; ingestionJobId : string }.

(** What the provisioning script does to the outside world. *)
Inductive kb_event :=
  | EvStartIngestionJob (knowledgeBaseId dataSourceId : string)
  | EvGetIngestionJob (knowledgeBaseId dataSourceId ingestionJobId : string)
  | EvPprintJob (job : ingestion_job)
  | EvPprintId (kb_id : string)
  | EvTimeSleep (seconds : nat)
  | EvInteractiveSleep (seconds : nat).

(** The [while job["status"] != "COMPLETE"] loop, run against the
    answers of [get_ingestion_job]. *)
Fixpoint wait_for_ingestion (kb_id ds_id : string) (job : ingestion_job)
    (answers : list (result ingestion_job))
    : outcome ingestion_job * list kb_event :=
  if bool_decide (ij_status job ≠ "COMPLETE") then
    match answers with
    | [] => (Spin, [])
    | Exn e :: _ =>
        (Raise e, [EvGetIngestionJob kb_id ds_id (ingestionJobId job)])
    | Ok job' :: answers' =>
        let '(out, evs) := wait_for_ingestion kb_id ds_id job' answers' in
        (out,
         EvGetIngestionJob kb_id ds_id (ingestionJobId job)
           :: EvTimeSleep 5 :: evs)
    end
  else (Ret job, []).

(** [kb_id] and [ds_id] are [kb["knowledgeBaseId"]] and
    [ds["dataSourceId"]]; [start] is the answer of [start_ingestion_job]. *)
Definition start_ingestion_job (kb_id ds_id : string)
    (start : result ingestion_job) (answers : list (result ingestion_job))
    : outcome unit * list kb_event :=
  match start with
  | Exn e => (Raise e, [EvStartIngestionJob kb_id ds_id])
  | Ok job =>
      match wait_for_ingestion kb_id ds_id job answers with
      | (Ret job', evs) =>
          (Ret tt,
           [EvStartIngestionJob kb_id ds_id; EvPprintJob job] ++ evs
           ++ [EvPprintJob job'; EvInteractiveSleep 40; EvPprintId kb_id])
      | (Raise e, evs) =>
          (Raise e, [EvStartIngestionJob kb_id ds_id; EvPprintJob job] ++ evs)
      | (Spin, evs) =>
          (Spin, [EvStartIngestionJob kb_id ds_id; EvPprintJob job] ++ evs)
      end
  end.

(** The status calls of a trace, and the seconds it sleeps. *)
Fixpoint status_calls (evs : list kb_event) : nat :=
  match evs with
  | [] => 0
  | EvGetIngestionJob _ _ _ :: evs' => S (status_calls evs')
  | _ :: evs' => status_calls evs'
  end.

Fixpoint kb_slept (evs : list kb_event) : nat :=
  match evs with
  | [] => 0
  | EvTimeSleep n :: evs' => n + kb_slept evs'
  | EvInteractiveSleep n :: evs' => n + kb_slept evs'
  | _ :: evs' => kb_slept evs'
  end.

(** An answer that carries a job which is not complete. *)
Definition incomplete (a : result ingestion_job) : bool :=
  match a with
  | Ok job => bool_decide (ij_status job ≠ "COMPLETE")
  | Exn _ => false
  end.

Definition job_in (status : string) : ingestion_job :=
  {| ij_status := status; ingestionJobId := "IJ1" |}.

(** * Properties *)

(** ** Substrings *)

Lemma append_cons (c : Ascii.ascii) (a b : string) :
  String c a +:+ b = String c (a +:+ b).
Proof. reflexivity. Qed.

Lemma prefix_append (key s : string) :
  String.prefix key s = true ↔ ∃ b, s = key +:+ b.
Proof.
  revert s. induction key as [|c key IH]; intros s.
  - split; [intros _; by exists s | by destruct s].
  - destruct s as [|c' s]; simpl.
    + split; [done | intros [b Hb]; discriminate].
    + destruct (Ascii.ascii_dec c c') as [->|Hne].
      * rewrite IH. split; intros [b Hb]; exists b;
          rewrite append_cons in *; congruence.
      * split; [done | intros [b Hb]; rewrite append_cons in Hb; congruence].
Qed.

Lemma py_in_nil (key : string) : py_in key "" = String.prefix key "".
Proof. unfold py_in. apply orb_false_r. Qed.

Lemma py_in_cons (key : string) (c : Ascii.ascii) (s : string) :
  py_in key (String c s) = String.prefix key (String c s) || py_in key s.
Proof. reflexivity. Qed.

(** [py_in] is Python's substring test. *)
Lemma py_in_substring (key s : string) :
  py_in key s = true ↔ ∃ a b, s = a +:+ key +:+ b.
Proof.
  induction s as [|c s IH]; [rewrite py_in_nil | rewrite py_in_cons].
  - rewrite prefix_append. split.
    + intros [b Hb]. by exists "", b.
    + intros [a [b Hab]]. destruct a; [by exists b | discriminate].
  - rewrite orb_true_iff, IH, prefix_append. split.
    + intros [[b Hb] | [a [b Hab]]].
      * by exists "", b.
      * exists (String c a), b. rewrite append_cons. by rewrite Hab.
    + intros [[|c' a] [b Hab]].
      * left. by exists b.
      * right. exists a, b. rewrite append_cons in Hab. congruence.
Qed.

(** ** The selector *)

Section SelectorFacts.
Context {P : Type}.
Implicit Types (items : list (string * P)) (cfg : configs P).

Lemma matching_cons_true kv items model_id :
  py_in (fst kv) model_id = true →
  matching (kv :: items) model_id = snd kv :: matching items model_id.
Proof. intros H. unfold matching. simpl. by rewrite H. Qed.

Lemma matching_cons_false kv items model_id :
  py_in (fst kv) model_id = false →
  matching (kv :: items) model_id = matching items model_id.
Proof. intros H. unfold matching. simpl. by rewrite H. Qed.

(** The first entry whose key occurs in the identifier is the one
    [next] returns. *)
Lemma matching_first items model_id d i key params :
  items !! i = Some (key, params) →
  py_in key model_id = true →
  (∀ j key' params', j < i → items !! j = Some (key', params') →
                     py_in key' model_id = false) →
  py_next (matching items model_id) d = params.
Proof.
  revert i. induction items as [|kv items IH]; intros i Hi Hin Hbefore.
  - done.
  - destruct i as [|i]; simpl in Hi.
    + injection Hi as ->. by rewrite matching_cons_true.
    + destruct kv as [k0 p0].
      rewrite matching_cons_false by (apply (Hbefore 0 k0 p0); [lia | done]).
      apply (IH i); [done | done |].
      intros j key' params' Hj Hlk.
      apply (Hbefore (S j) key' params'); [lia | done].
Qed.

Lemma matching_none items model_id d :
  (∀ key params, (key, params) ∈ items → py_in key model_id = false) →
  py_next (matching items model_id) d = d.
Proof.
  induction items as [|[k0 p0] items IH]; intros Hnone; [done |].
  rewrite matching_cons_false by (apply (Hnone k0 p0); left).
  apply IH. intros key params Hel. apply (Hnone key params). by right.
Qed.
End SelectorFacts.

(** C5: the parameter bundle is picked by substring tests against the
    keys "nova-canvas" (image), "nova-reel" (video), "anthropic" (vendor
    text) and "nova" (generic text), tried in this order, and the first key
    that occurs in the identifier decides; when none occurs the generic text
    bundle is returned; the same identifier always gives the same bundle and
    the same protocol; "anthropic.claude-x" is served by the text protocol
    with the vendor text bundle. *)
Theorem select_params_first_match {P : Type} (cfg : configs P) (model_id : string) :
  fst <$> model_params cfg = ["nova-canvas"; "nova-reel"; "anthropic"; "nova"]
  ∧ (∀ i key params,
       model_params cfg !! i = Some (key, params) →
       py_in key model_id = true →
       (∀ j key' params', j < i → model_params cfg !! j = Some (key', params') →
                          py_in key' model_id = false) →
       select_params cfg model_id = params)
  ∧ ((∀ key params, (key, params) ∈ model_params cfg → py_in key model_id = false) →
     select_params cfg model_id = nova_model_params cfg)
  ∧ (∀ model_id', model_id' = model_id →
       select_params cfg model_id' = select_params cfg model_id
       ∧ select_protocol model_id' = select_protocol model_id)
  ∧ select_protocol "anthropic.claude-x" = TextProtocol
  ∧ select_params cfg "anthropic.claude-x" = claude_model_params cfg.
Proof.
  split; [reflexivity |].
  split; [intros i key params; apply matching_first |].
  split; [apply matching_none |].
  split; [by intros ? -> |].
  split; reflexivity.
Qed.

(** An identifier of the image family that also names the generic family:
    the image bundle wins. *)
Lemma select_params_first_match_witness :
  select_params
    {| start_message := "Hello"; nova_canvas_params := 1; nova_reel_params := 2;
       claude_model_params := 3; nova_model_params := 4 |}
    "amazon.nova-canvas-v1:0" = 1.
Proof.
  eapply (proj1 (proj2 (select_params_first_match _ _)) 0 "nova-canvas").
  - reflexivity.
  - reflexivity.
  - intros j key' params' Hj. lia.
Defined.

(** ** clear_screen *)

(** C9: the reset leaves exactly the start message in the conversation,
    an empty wire history, no uploaded-document state and no active video
    job, all in one state transformer; the uploaded files, the message
    objects and the trace are not touched. *)
Theorem clear_screen_resets {P : Type} (cfg : configs P) (s : state) :
  messages (clear_screen cfg s)
    = [ {| turn_role := "assistant"; turn_content := DStr (start_message cfg) |} ]
  ∧ bedrock_messages (clear_screen cfg s) = []
  ∧ uploaded_document_content (clear_screen cfg s) = []
  ∧ active (video_job (clear_screen cfg s)) = false
  ∧ video_job (clear_screen cfg s)
      = match video_job s with JobAbsent => JobAbsent | _ => JobNone end
  ∧ uploaded_files (clear_screen cfg s) = uploaded_files s
  ∧ heap (clear_screen cfg s) = heap s
  ∧ log (clear_screen cfg s) = log s.
Proof.
  unfold clear_screen. destruct s as [ms bms udc vj ufs h lg]. simpl.
  destruct vj; simpl; repeat split.
Qed.

(** ** One iteration of the polling loop *)

Ltac state_eq :=
  unfold reported, logged, set_log, set_heap, set_video_job, set_messages,
    set_bedrock_messages; simpl;
  rewrite <- ?app_assoc; reflexivity.

Lemma poll_step_completed bh o s job video_path :
  video_job s = JobActive job →
  backend_success o = true →
  check_video_exists o = Ok (true, video_path) →
  poll_step bh o s =
    (Ret Break,
     reported bh (completed_message job video_path)
       [EvGetAsyncInvoke (invocation_arn job);
        EvCheckVideo (s3_bucket job) (s3_prefix job);
        EvUi UiSuccess (completed_message job video_path)] s).
Proof.
  intros Hjob Hok Hart. destruct s as [ms bms udc vj ufs h lg].
  simpl in Hjob. subst vj. unfold backend_success in Hok.
  unfold poll_step, mbind, M_bind, current_job, get_video_status. simpl.
  destruct (get_async_invoke o) as [r|e]; [|done]. simpl.
  rewrite Hok. simpl. rewrite Hart. simpl.
  f_equal. state_eq.
Qed.

Ltac run_poll_step s Hjob :=
  destruct s as [ms bms udc vj ufs h lg];
  simpl in Hjob; subst vj;
  unfold backend_success, backend_failure, backend_status_text in *;
  unfold poll_step, mbind, M_bind, current_job, get_video_status; simpl.

Lemma poll_step_waiting_artifact bh o s job video_path :
  video_job s = JobActive job →
  backend_success o = true →
  check_video_exists o = Ok (false, video_path) →
  poll_step bh o s =
    (Ret Continue,
     logged
       [EvGetAsyncInvoke (invocation_arn job);
        EvCheckVideo (s3_bucket job) (s3_prefix job);
        EvUi UiInfo "Video processing... Waiting for S3 upload to complete..."] s).
Proof.
  intros Hjob Hok Hart. run_poll_step s Hjob.
  destruct (get_async_invoke o) as [r|e]; [|done]. simpl.
  rewrite Hok. simpl. rewrite Hart. simpl.
  f_equal. state_eq.
Qed.

Lemma poll_step_artifact_error bh o s job e :
  video_job s = JobActive job →
  backend_success o = true →
  check_video_exists o = Exn e →
  poll_step bh o s =
    (Raise e,
     logged
       [EvGetAsyncInvoke (invocation_arn job);
        EvCheckVideo (s3_bucket job) (s3_prefix job)] s).
Proof.
  intros Hjob Hok Hart. run_poll_step s Hjob.
  destruct (get_async_invoke o) as [r|e']; [|done]. simpl.
  rewrite Hok. simpl. rewrite Hart. simpl.
  f_equal. state_eq.
Qed.

Lemma backend_failure_not_success o err :
  backend_failure o = Some err → backend_success o = false.
Proof.
  unfold backend_failure, backend_success.
  destruct (get_async_invoke o) as [r|e]; [|done].
  repeat case_bool_decide; try done. congruence.
Qed.

Lemma poll_step_failed bh o s job err :
  video_job s = JobActive job →
  backend_failure o = Some err →
  poll_step bh o s =
    (Ret Break,
     reported bh ("❌ Video generation failed: " +:+ py_str err)
       [EvGetAsyncInvoke (invocation_arn job);
        EvUi UiError ("❌ Video generation failed: " +:+ py_str err)] s).
Proof.
  intros Hjob Hfail. pose proof (backend_failure_not_success _ _ Hfail) as Hok.
  run_poll_step s Hjob.
  destruct (get_async_invoke o) as [r|e]; simpl.
  - rewrite Hok. simpl.
    destruct (bool_decide (resp_status r = Some "Failed")); [|done].
    injection Hfail as <-. f_equal. state_eq.
  - injection Hfail as <-. f_equal. state_eq.
Qed.

Lemma poll_step_running bh o s job :
  video_job s = JobActive job →
  backend_success o = false →
  backend_failure o = None →
  poll_step bh o s =
    (Ret Continue,
     logged
       [EvGetAsyncInvoke (invocation_arn job);
        EvUi UiInfo ("⏳ Generating Video... This can take up to 5 minutes. Status: "
                     +:+ backend_status_text o)] s).
Proof.
  intros Hjob Hok Hfail. run_poll_step s Hjob.
  destruct (get_async_invoke o) as [r|e]; [|done]. simpl.
  rewrite Hok. simpl.
  destruct (bool_decide (resp_status r = Some "Failed")); [done |].
  f_equal. state_eq.
Qed.

Lemma poll_step_cases bh o s job :
  video_job s = JobActive job → poll_case bh o s job (poll_step bh o s).
Proof.
  intros Hjob.
  destruct (backend_success o) eqn:Hok.
  - destruct (check_video_exists o) as [[[] video_path]|e] eqn:Hart.
    + rewrite (poll_step_completed _ _ _ _ _ Hjob Hok Hart). by econstructor.
    + rewrite (poll_step_waiting_artifact _ _ _ _ _ Hjob Hok Hart).
      by econstructor.
    + rewrite (poll_step_artifact_error _ _ _ _ _ Hjob Hok Hart).
      by econstructor.
  - destruct (backend_failure o) as [err|] eqn:Hfail.
    + rewrite (poll_step_failed _ _ _ _ _ Hjob Hfail). by econstructor.
    + rewrite (poll_step_running _ _ _ _ Hjob Hok Hfail). by econstructor.
Qed.

Lemma completed_message_not_failed job video_path err :
  completed_message job video_path ≠ "❌ Video generation failed: " +:+ py_str err.
Proof. unfold completed_message. simpl. discriminate. Qed.

Lemma poll_loop_cons bh o polls s :
  poll_loop bh (o :: polls) s =
    match poll_step bh o s with
    | (Ret Break, s') => (Ret tt, s')
    | (Ret Continue, s') => poll_loop bh polls (logged [EvSleep 10] s')
    | (Raise e, s') => (Raise e, s')
    | (Spin, s') => (Spin, s')
    end.
Proof.
  simpl. unfold mbind, M_bind.
  destruct (poll_step bh o s) as [[[]| |] s']; reflexivity.
Qed.

(** C2: an iteration ends the job with the completion report only when
    the backend reports the status "Completed" and the storage check
    confirms the artifact; it does so whenever both hold; and when the
    backend reports success while the artifact is not there yet, nothing is
    reported, the job stays as it is, and the loop sleeps and runs at least
    one more iteration. *)
Theorem completed_needs_artifact bh o polls s job :
  video_job s = JobActive job →
  (∀ video_path,
     ends_with bh o s (completed_message job video_path) →
     backend_success o = true ∧ ∃ p, check_video_exists o = Ok (true, p))
  ∧ (∀ video_path,
       backend_success o = true →
       check_video_exists o = Ok (true, video_path) →
       ends_with bh o s (completed_message job video_path))
  ∧ (∀ video_path,
       backend_success o = true →
       check_video_exists o = Ok (false, video_path) →
       absorbed bh o s
       ∧ ∃ s', video_job s' = JobActive job
               ∧ messages s' = messages s
               ∧ poll_loop bh (o :: polls) s = poll_loop bh polls s').
Proof.
  intros Hjob. split; [|split].
  - intros video_path (s' & Hstep & _ & Hmsgs).
    destruct (poll_step_cases bh o s job Hjob); try discriminate.
    + eauto.
    + injection Hstep as <-. unfold reported in Hmsgs. cbn [messages] in Hmsgs.
      apply app_inv_head in Hmsgs.
      destruct (completed_message_not_failed job video_path err).
      unfold report in Hmsgs. congruence.
  - intros video_path Hok Hart.
    eexists. split; [by apply poll_step_completed | done].
  - intros video_path Hok Hart.
    pose proof (poll_step_waiting_artifact bh o s job _ Hjob Hok Hart) as Hstep.
    split.
    + eexists. split; [exact Hstep | done].
    + eexists. split; [|split]; [| |rewrite poll_loop_cons, Hstep; reflexivity];
        done.
Qed.

(** The backend says "Completed" and the bucket is still empty. *)
Lemma completed_needs_artifact_witness :
  absorbed reel_handler obs_completed_no_artifact polling_state.
Proof.
  apply (proj2 (proj2 (completed_needs_artifact
                         reel_handler obs_completed_no_artifact []
                         polling_state sample_job eq_refl))
           None eq_refl eq_refl).
Defined.

(** ** Transport errors while polling *)

(** C1 (as amended): when the status call raises, [get_video_status]
    answers with the status "Error" and the failed flag set, so the
    iteration that sees the exception ends the job: one failure report with
    the text of the exception is appended to the conversation, the job is
    cleared and the loop stops; later answers of the backend are never
    asked for. *)
Theorem transport_error_ends_job bh o polls s job e :
  video_job s = JobActive job →
  get_async_invoke o = Exn e →
  ends_with bh o s ("❌ Video generation failed: " +:+ e)
  ∧ poll_loop bh (o :: polls) s =
      (Ret tt,
       reported bh ("❌ Video generation failed: " +:+ e)
         [EvGetAsyncInvoke (invocation_arn job);
          EvUi UiError ("❌ Video generation failed: " +:+ e)] s).
Proof.
  intros Hjob Herr.
  assert (backend_failure o = Some (Some e)) as Hfail
    by (unfold backend_failure; by rewrite Herr).
  pose proof (poll_step_failed bh o s job _ Hjob Hfail) as Hstep.
  simpl py_str in Hstep. split.
  - eexists. split; [exact Hstep | done].
  - by rewrite poll_loop_cons, Hstep.
Qed.

Lemma transport_error_ends_job_witness :
  ends_with reel_handler obs_transport_error polling_state
    "❌ Video generation failed: Read timed out".
Proof.
  apply (proj1 (transport_error_ends_job
                  reel_handler obs_transport_error [obs_completed]
                  polling_state sample_job "Read timed out" eq_refl eq_refl)).
Defined.

(** The claim as the specification words it fails on a single timeout:
    the iteration is not absorbed; the loop returns with the failure report
    and without the job, and the answer that would have completed the job is
    never asked for. *)
Lemma transport_error_not_absorbed :
  ¬ absorbed reel_handler obs_transport_error polling_state
  ∧ poll_loop reel_handler [obs_transport_error; obs_completed] polling_state
    = (Ret tt,
       reported reel_handler "❌ Video generation failed: Read timed out"
         [EvGetAsyncInvoke (invocation_arn sample_job);
          EvUi UiError "❌ Video generation failed: Read timed out"]
         polling_state).
Proof.
  split; [|vm_compute; reflexivity].
  intros (s' & Hstep & _). vm_compute in Hstep. discriminate Hstep.
Qed.

(** ** The polling loop as a whole *)

Lemma poll_loop_post bh polls s job :
  video_job s = JobActive job → loop_post job s (poll_loop bh polls s).
Proof.
  revert s. induction polls as [|o polls IH]; intros s Hjob.
  - done.
  - rewrite poll_loop_cons.
    destruct (poll_step_cases bh o s job Hjob) as [p ? ?|p ? ?|e ? ?|err ? ?|? ?];
      simpl.
    + split; [|done]. eexists. split; [left; by eexists | done].
    + apply (IH (logged _ (logged _ s))). done.
    + done.
    + split; [|done]. eexists. split; [right; by eexists | done].
    + apply (IH (logged _ (logged _ s))). done.
Qed.

(** The loop returns as soon as the world gives a terminal answer, when
    the answers before it only made it wait. *)
Lemma poll_loop_returns bh pre o post s job :
  video_job s = JobActive job →
  forallb obs_waiting pre = true →
  obs_terminal o = true →
  ∃ s', poll_loop bh (pre ++ o :: post) s = (Ret tt, s').
Proof.
  revert s. induction pre as [|w pre IH]; intros s Hjob Hpre Hterm.
  - rewrite app_nil_l, poll_loop_cons. unfold obs_terminal in Hterm.
    destruct (poll_step_cases bh o s job Hjob) as [p Hs Ha|p Hs Ha|e Hs Ha|err Hs Hf|Hs Hf];
      rewrite Hs in Hterm; try rewrite Ha in Hterm; try rewrite Hf in Hterm;
      try done; by eexists.
  - simpl in Hpre. apply andb_prop in Hpre as [Hw Hpre].
    rewrite <- app_comm_cons, poll_loop_cons. unfold obs_waiting in Hw.
    destruct (poll_step_cases bh w s job Hjob) as [p Hs Ha|p Hs Ha|e Hs Ha|err Hs Hf|Hs Hf];
      rewrite Hs in Hw; try rewrite Ha in Hw; try rewrite Hf in Hw; try done;
      by apply IH.
Qed.

(** ** handle_video_generation *)

(** With a job in the session the handler submits nothing and polls it. *)
Lemma handle_video_generation_active bh polls prompt s3_uri file s job :
  video_job s = JobActive job →
  handle_video_generation bh polls prompt s3_uri file s = poll_loop bh polls s.
Proof.
  intros Hjob. destruct s as [ms bms udc vj ufs h lg]. simpl in Hjob. subst vj.
  reflexivity.
Qed.

Lemma handle_video_generation_idle bh polls prompt s3_uri file s job :
  active (video_job s) = false →
  generate_video bh prompt s3_uri (image_of file) = Ok job →
  handle_video_generation bh polls prompt s3_uri file s
    = poll_loop bh polls (submitted prompt s3_uri file job s).
Proof.
  intros Hidle Hgen. destruct s as [ms bms udc vj ufs h lg]. simpl in Hidle.
  unfold handle_video_generation, mbind, M_bind, image_of in *.
  destruct vj; try done; simpl; rewrite Hgen; simpl; f_equal; state_eq.
Qed.

Lemma handle_video_generation_refused bh polls prompt s3_uri file s e :
  active (video_job s) = false →
  generate_video bh prompt s3_uri (image_of file) = Exn e →
  handle_video_generation bh polls prompt s3_uri file s
    = (Raise e,
       set_video_job JobNone
         (logged [EvUi UiInfo "Starting video generation. This may take a few minutes...";
                  EvGenerateVideo prompt s3_uri (image_of file)] s)).
Proof.
  intros Hidle Hgen. destruct s as [ms bms udc vj ufs h lg]. simpl in Hidle.
  unfold handle_video_generation, mbind, M_bind, image_of in *.
  destruct vj; try done; simpl; rewrite Hgen; simpl; f_equal; state_eq.
Qed.

Lemma poll_loop_handler_post bh polls s s0 job :
  video_job s0 = JobActive job →
  messages s0 = messages s →
  handler_post bh s (poll_loop bh polls s0).
Proof.
  intros Hjob Hms. pose proof (poll_loop_post bh polls s0 job Hjob) as Hp.
  destruct (poll_loop bh polls s0) as [[[]|e|] s']; simpl in *.
  - destruct Hp as [(text & Htext & Hmsgs) Hnone]. split; [|split].
    + exists job, text. by rewrite <- Hms.
    + done.
    + intros polls2 prompt2 s3_uri2 file2 job2 Hgen. split; [|done].
      apply handle_video_generation_idle; [by rewrite Hnone | done].
  - destruct Hp as [Hp _]. congruence.
  - destruct Hp as [Hp _]. congruence.
Qed.

(** C7: a run of the video handler that returns has appended exactly one
    report, a completion or a failure report, to the conversation and has
    cleared the job, so that the next video request is submitted to the
    backend and its job is the one polled; a run that does not return has
    appended nothing.  The run does return when the world, after answers
    that only make the loop wait, gives a terminal answer. *)
Theorem one_report_then_idle bh polls prompt s3_uri file s :
  handler_post bh s (handle_video_generation bh polls prompt s3_uri file s)
  ∧ (∀ job pre o post,
       video_job s = JobActive job
       ∨ (active (video_job s) = false
          ∧ generate_video bh prompt s3_uri (image_of file) = Ok job) →
       forallb obs_waiting pre = true →
       obs_terminal o = true →
       polls = pre ++ o :: post →
       ∃ s', handle_video_generation bh polls prompt s3_uri file s = (Ret tt, s')).
Proof.
  split.
  - destruct (active (video_job s)) eqn:Hact.
    + destruct (video_job s) as [| |job] eqn:Hjob; try done.
      rewrite (handle_video_generation_active _ _ _ _ _ _ job Hjob).
      by apply (poll_loop_handler_post _ _ _ _ job).
    + destruct (generate_video bh prompt s3_uri (image_of file)) as [job|e] eqn:Hgen.
      * rewrite (handle_video_generation_idle _ _ _ _ _ _ job Hact Hgen).
        by apply (poll_loop_handler_post _ _ _ _ job).
      * by rewrite (handle_video_generation_refused _ _ _ _ _ _ e Hact Hgen).
  - intros job pre o post [Hjob | [Hidle Hgen]] Hpre Hterm ->.
    + rewrite (handle_video_generation_active _ _ _ _ _ _ job Hjob).
      by apply (poll_loop_returns bh pre o post s job).
    + rewrite (handle_video_generation_idle _ _ _ _ _ _ job Hidle Hgen).
      by apply (poll_loop_returns bh pre o post _ job).
Qed.

(** A request in an idle session: the loop waits twice, once for the
    backend and once for the artifact, then reports. *)
Lemma one_report_then_idle_witness :
  ∃ s', handle_video_generation reel_handler
          [obs_in_progress; obs_completed_no_artifact; obs_completed]
          "a cat" (Some "s3://videos") None idle_state = (Ret tt, s').
Proof.
  exact (proj2 (one_report_then_idle reel_handler
                  [obs_in_progress; obs_completed_no_artifact; obs_completed]
                  "a cat" (Some "s3://videos") None idle_state)
           sample_job [obs_in_progress; obs_completed_no_artifact]
           obs_completed []
           (or_intror (conj eq_refl eq_refl)) eq_refl eq_refl eq_refl).
Defined.

(** ** Invariants of computations *)

Section Keeps.
Context (I : state → Prop) (Q : event → Prop) `{!Stable I Q}.

Lemma keeps_ret {A} (a : A) : keeps I (mret a).
Proof. by intros s Hs. Qed.

Lemma keeps_bind {A B} (m : M A) (k : A → M B) :
  keeps I m → (∀ a, keeps I (k a)) → keeps I (m ≫= k).
Proof.
  intros Hm Hk s Hs. unfold mbind, M_bind. specialize (Hm s Hs).
  destruct (m s) as [[a|e|] s']; simpl in *; [by apply Hk | done | done].
Qed.

Lemma keeps_raise {A} e : keeps I (@raise A e).
Proof. by intros s Hs. Qed.

Lemma keeps_spin {A} : keeps I (@spin A).
Proof. by intros s Hs. Qed.

Lemma keeps_get : keeps I get.
Proof. by intros s Hs. Qed.

Lemma keeps_answer {A} (r : result A) : keeps I (answer r).
Proof. destruct r; [apply keeps_ret | apply keeps_raise]. Qed.

Lemma keeps_deref l : keeps I (deref l).
Proof. intros s Hs. unfold deref. by destruct (heap s !! l). Qed.

Lemma keeps_emit ev : Q ev → keeps I (emit ev).
Proof. intros HQ s Hs. by apply stable_log. Qed.

Lemma keeps_alloc m : keeps I (alloc m).
Proof. intros s Hs. by apply stable_alloc. Qed.

Lemma keeps_set_video_job j : keeps I (modify (set_video_job j)).
Proof. intros s Hs. by apply stable_video_job. Qed.

Lemma keeps_deref_all ls : keeps I (deref_all ls).
Proof.
  induction ls as [|l ls IH]; simpl.
  - apply keeps_ret.
  - apply keeps_bind; [apply keeps_deref | intros m].
    apply keeps_bind; [apply IH | intros ms]. apply keeps_ret.
Qed.

Lemma keeps_for_each {A} (body : A → M unit) l :
  (∀ x, keeps I (body x)) → keeps I (for_each body l).
Proof.
  intros Hbody. induction l as [|x l IH]; simpl.
  - apply keeps_ret.
  - apply keeps_bind; [apply Hbody | intros _; apply IH].
Qed.

Lemma keeps_update_chat_history bh response :
  keeps I (update_chat_history bh response).
Proof.
  unfold update_chat_history.
  apply keeps_bind; [intros s Hs; by apply stable_messages | intros _].
  apply keeps_bind; [apply keeps_alloc | intros l].
  intros s Hs. by apply stable_bedrock_messages.
Qed.

Hypothesis Q_polling : ∀ ev, polling_event ev → Q ev.

Lemma keeps_append_message t :
  keeps I (modify (set_messages (λ l, l ++ [t]))).
Proof. intros s Hs. by apply stable_messages. Qed.

Lemma keeps_append_bedrock_message l :
  keeps I (modify (set_bedrock_messages (λ ls, ls ++ [l]))).
Proof. intros s Hs. by apply stable_bedrock_messages. Qed.

Ltac keeps_step :=
  lazymatch goal with
  | |- keeps _ (mret _) => apply keeps_ret
  | |- keeps _ (raise _) => apply keeps_raise
  | |- keeps _ spin => apply keeps_spin
  | |- keeps _ get => apply keeps_get
  | |- keeps _ (answer _) => apply keeps_answer
  | |- keeps _ (deref _) => apply keeps_deref
  | |- keeps _ (deref_all _) => apply keeps_deref_all
  | |- keeps _ (alloc _) => apply keeps_alloc
  | |- keeps _ (modify (set_video_job _)) => apply keeps_set_video_job
  | |- keeps _ (modify (set_messages _)) => apply keeps_append_message
  | |- keeps _ (modify (set_bedrock_messages _)) =>
      apply keeps_append_bedrock_message
  | |- keeps _ (update_chat_history _ _) => apply keeps_update_chat_history
  | |- keeps _ (emit _) => apply keeps_emit
  | |- keeps _ (_ ≫= _) => apply keeps_bind; [|intros ?]
  | |- keeps _ (match ?x with _ => _ end) => destruct x
  end.

Lemma keeps_poll_step bh o : keeps I (poll_step bh o).
Proof.
  unfold poll_step, current_job, get_video_status, ui.
  repeat keeps_step; by apply Q_polling.
Qed.

Lemma keeps_poll_loop bh polls : keeps I (poll_loop bh polls).
Proof.
  induction polls as [|o polls IH]; simpl.
  - apply keeps_spin.
  - apply keeps_bind; [apply keeps_poll_step | intros []].
    + apply keeps_ret.
    + apply keeps_bind; [by apply keeps_emit, Q_polling | intros _; apply IH].
Qed.

Hypothesis Q_submit : ∀ prompt s3_uri image, Q (EvGenerateVideo prompt s3_uri image).
Hypothesis Q_invoke : ∀ request, Q (EvInvoke request).
Hypothesis Q_stream : ∀ request, Q (EvInvokeStream request).
Hypothesis Q_source : ∀ i d, Q (EvUiSource i d).

Lemma keeps_handle_video_generation bh polls prompt s3_uri file :
  keeps I (handle_video_generation bh polls prompt s3_uri file).
Proof.
  unfold handle_video_generation, ui.
  repeat first [ apply keeps_poll_loop | keeps_step ];
    try apply Q_submit; by apply Q_polling.
Qed.

Lemma keeps_handle_image_generation bh messages :
  keeps I (handle_image_generation bh messages).
Proof.
  unfold handle_image_generation, ui.
  repeat keeps_step; try apply Q_invoke; by apply Q_polling.
Qed.

Lemma keeps_document_panel : keeps I document_panel.
Proof.
  unfold document_panel, ui. repeat keeps_step; try by apply Q_polling.
  apply keeps_for_each. intros [file_name info]. unfold document_status, ui.
  repeat keeps_step; by apply Q_polling.
Qed.

Lemma keeps_consume_stream text stream : keeps I (consume_stream text stream).
Proof.
  revert text. induction stream as [|ev stream IH]; intros text; simpl.
  - apply keeps_ret.
  - apply keeps_bind; [by apply keeps_emit, Q_polling | intros _; apply IH].
Qed.

Lemma keeps_first_text blocks : keeps I (first_text blocks).
Proof. unfold first_text. repeat keeps_step. Qed.

Lemma keeps_generate_text bh system_msg full_messages streaming :
  keeps I (generate_text bh system_msg full_messages streaming).
Proof.
  unfold generate_text, ui.
  repeat first [ apply keeps_consume_stream | apply keeps_first_text | keeps_step ];
    try apply Q_stream; try apply Q_invoke; by apply Q_polling.
Qed.

Lemma keeps_sources_panel docs : keeps I (sources_panel docs).
Proof.
  unfold sources_panel, ui. repeat keeps_step; try by apply Q_polling.
  apply keeps_for_each. intros [i d]. by apply keeps_emit, Q_source.
Qed.

Lemma keeps_handle_text_tail bh system_msg full_messages streaming docs :
  keeps I (full_response ← generate_text bh system_msg full_messages streaming;
           sources_panel docs;;
           update_chat_history bh full_response).
Proof.
  apply keeps_bind; [apply keeps_generate_text | intros full_response].
  apply keeps_bind; [apply keeps_sources_panel | intros _].
  apply keeps_update_chat_history.
Qed.

(** A turn that is not served by the text protocol. *)
Lemma keeps_on_prompt_media bh kb polls model_id streaming_on s3_uri prompt :
  select_protocol model_id ≠ TextProtocol →
  keeps I (on_prompt bh kb polls model_id streaming_on s3_uri prompt).
Proof.
  intros Hproto. unfold on_prompt, retrieve, select_protocol, ui in *.
  apply keeps_bind; [apply keeps_append_message | intros _].
  apply keeps_bind; [by apply keeps_emit, Q_polling | intros _].
  destruct (py_in "nova-canvas" model_id) eqn:Hcanvas;
    destruct (py_in "nova-reel" model_id) eqn:Hreel; try done; simpl;
    repeat
      lazymatch goal with
      | |- keeps _ (handle_image_generation _ _) =>
          apply keeps_handle_image_generation
      | |- keeps _ (handle_video_generation _ _ _ _ _) =>
          apply keeps_handle_video_generation
      | |- _ => keeps_step
      end;
    by apply Q_polling.
Qed.

End Keeps.

#[export] Instance log_extends_stable l0 Q : Stable (log_extends l0 Q) Q.
Proof.
  split; try (intros s ? Hs; exact Hs).
  intros s ev HQ (evs & Hlog & Hall). exists (evs ++ [ev]). simpl. split.
  - by rewrite Hlog, app_assoc.
  - apply Forall_app. split; [done | by constructor].
Qed.

Lemma log_extends_refl Q s : log_extends (log s) Q s.
Proof. exists []. split; [by rewrite app_nil_r | constructor]. Qed.

#[export] Instance first_user_text_stable l0 T bs :
  Stable (first_user_text l0 T bs) (λ _, True).
Proof.
  split; try (intros s ? Hs; exact Hs); try (intros s ? ? Hs; exact Hs).
  - intros s l [[rest Hb] Hm]. split; [|exact Hm].
    exists (rest ++ [l]). simpl. by rewrite Hb.
  - intros s m' [Hb (m & Hm & Hr & Hc)]. split; [exact Hb|].
    exists m. split; [|done]. simpl. by apply lookup_app_l_Some.
Qed.

(** ** A video request while a job is active *)

Lemma poll_step_polls_handle bh o s job :
  video_job s = JobActive job →
  ∃ evs, log (poll_step bh o s).2
         = log s ++ EvGetAsyncInvoke (invocation_arn job) :: evs.
Proof.
  intros Hjob. destruct (poll_step_cases bh o s job Hjob); by eexists.
Qed.

Lemma poll_loop_polls_handle bh o polls s job :
  video_job s = JobActive job →
  ∃ evs, log (poll_loop bh (o :: polls) s).2
         = log s ++ EvGetAsyncInvoke (invocation_arn job) :: evs.
Proof.
  intros Hjob. rewrite poll_loop_cons.
  destruct (poll_step_polls_handle bh o s job Hjob) as [evs Hevs].
  destruct (poll_step bh o s) as [[[]|e|] s1]; simpl in Hevs; try by eexists.
  assert (log_extends (log s ++ [EvGetAsyncInvoke (invocation_arn job)])
            (λ _, True) (poll_loop bh polls (logged [EvSleep 10] s1)).2)
    as (evs' & Hlog & _).
  { apply (keeps_poll_loop _ (λ _, True)); [done |].
    exists (evs ++ [EvSleep 10]). split; [|by apply Forall_true].
    simpl. rewrite Hevs. by rewrite <- !app_assoc. }
  exists evs'. rewrite Hlog. by rewrite <- app_assoc.
Qed.

(** C4 (as amended): a video request that arrives while a job is active
    submits nothing; the handler goes straight to the polling loop with the
    stored job handle, so the run only adds polling events to the trace, the
    first being the status call for that handle, and it reports and clears
    that job exactly when the loop returns. *)
Theorem active_job_is_resumed bh polls prompt s3_uri file s job :
  video_job s = JobActive job →
  handle_video_generation bh polls prompt s3_uri file s = poll_loop bh polls s
  ∧ log_extends (log s) polling_event
      (handle_video_generation bh polls prompt s3_uri file s).2
  ∧ (∀ o polls', polls = o :: polls' →
       ∃ evs, log (handle_video_generation bh polls prompt s3_uri file s).2
              = log s ++ EvGetAsyncInvoke (invocation_arn job) :: evs)
  ∧ loop_post job s (handle_video_generation bh polls prompt s3_uri file s).
Proof.
  intros Hjob. rewrite (handle_video_generation_active _ _ _ _ _ _ job Hjob).
  split; [done |]. split; [|split].
  - apply (keeps_poll_loop _ polling_event); [done | apply log_extends_refl].
  - intros o polls' ->. by apply poll_loop_polls_handle.
  - by apply poll_loop_post.
Qed.

Lemma active_job_is_resumed_witness :
  handle_video_generation reel_handler [obs_completed] "a dog"
    (Some "s3://videos") None polling_state
  = poll_loop reel_handler [obs_completed] polling_state.
Proof.
  exact (proj1 (active_job_is_resumed reel_handler [obs_completed] "a dog"
                  (Some "s3://videos") None polling_state sample_job eq_refl)).
Defined.

(** A second request while the job of the first is being polled: no
    error is surfaced, and the run ends the job of the first request. *)
Lemma second_request_not_rejected :
  ¬ rejected_in_progress polling_state
      (handle_video_generation reel_handler [obs_completed] "a dog"
         (Some "s3://videos") None polling_state)
  ∧ error_surfaced polling_state
      (handle_video_generation reel_handler [obs_completed] "a dog"
         (Some "s3://videos") None polling_state) = false
  ∧ video_job
      (handle_video_generation reel_handler [obs_completed] "a dog"
         (Some "s3://videos") None polling_state).2 = JobNone.
Proof.
  split; [|split]; [| vm_compute; reflexivity | vm_compute; reflexivity].
  intros [Herr _]. vm_compute in Herr. discriminate Herr.
Qed.

(** ** The guard on the output location *)

(** C6: a video request without an output location ([None] or the empty
    string) stops at the guard: the turn shows the error, the user's prompt
    is in the display history, and nothing else happened; no knowledge-base
    query, no model call, no submission, no message object, no job. *)
Theorem missing_output_location_fails_fast
    bh kb polls model_id streaming_on s3_uri prompt s :
  select_protocol model_id = VideoProtocol →
  truthy s3_uri = false →
  on_prompt bh kb polls model_id streaming_on s3_uri prompt s
  = (Ret tt,
     logged
       [EvUi UiWrite prompt;
        EvUi UiError "Please provide an S3 output location for video generation"]
       (set_messages
          (λ l, l ++ [ {| turn_role := "user"; turn_content := DStr prompt |} ]) s)).
Proof.
  intros Hproto Hs3. unfold select_protocol in Hproto.
  destruct (py_in "nova-canvas" model_id); [done |].
  destruct (py_in "nova-reel" model_id) eqn:Hreel; [|done].
  destruct s. unfold on_prompt, mbind, M_bind. simpl. rewrite Hreel, Hs3.
  unfold ui, emit, modify. simpl. f_equal. state_eq.
Qed.

Lemma missing_output_location_fails_fast_witness :
  new_events idle_state
    (on_prompt reel_handler sample_kb [obs_completed] "amazon.nova-reel-v1:0"
       false (Some "") "a cat" idle_state).2
  = [EvUi UiWrite "a cat";
     EvUi UiError "Please provide an S3 output location for video generation"].
Proof.
  rewrite (missing_output_location_fails_fast reel_handler sample_kb
             [obs_completed] "amazon.nova-reel-v1:0" false (Some "") "a cat"
             idle_state eq_refl eq_refl).
  reflexivity.
Defined.

(** ** Retrieval *)

Lemma polling_event_not_kb_query ev : polling_event ev → is_kb_query ev = false.
Proof. by destruct ev. Qed.

(** A text turn does query the index, once, before anything is sent. *)
Lemma retrieve_text kb model_id prompt s :
  select_protocol model_id = TextProtocol →
  retrieve kb model_id prompt s
  = answer (get_relevant_docs kb prompt) (logged [EvKbQuery prompt] s).
Proof.
  unfold select_protocol, retrieve. intros Hproto.
  destruct (py_in "nova-canvas" model_id); [done |].
  destruct (py_in "nova-reel" model_id); [done |].
  reflexivity.
Qed.

(** C8: in a turn routed to the image or to the video protocol the
    retrieval step returns the empty list without touching anything, and the
    whole turn adds no query of the document index to the trace. *)
Theorem retrieval_only_for_text
    bh kb polls model_id streaming_on s3_uri prompt s :
  select_protocol model_id ≠ TextProtocol →
  retrieve kb model_id prompt s = (Ret [], s)
  ∧ log_extends (log s) (λ ev, is_kb_query ev = false)
      (on_prompt bh kb polls model_id streaming_on s3_uri prompt s).2.
Proof.
  intros Hproto. split.
  - unfold select_protocol, retrieve in *.
    destruct (py_in "nova-canvas" model_id); [done |].
    by destruct (py_in "nova-reel" model_id).
  - apply (keeps_on_prompt_media _ (λ ev, is_kb_query ev = false));
      [apply polling_event_not_kb_query | done | done | done |
       apply log_extends_refl].
Qed.

Lemma retrieval_only_for_text_witness :
  retrieve sample_kb "amazon.nova-reel-v1:0" "a cat" idle_state
  = (Ret [], idle_state).
Proof.
  apply (proj1 (retrieval_only_for_text reel_handler sample_kb [obs_completed]
                  "amazon.nova-reel-v1:0" false (Some "s3://videos") "a cat"
                  idle_state ltac:(discriminate))).
Defined.

(** ** The system prompt and the stored first message *)

Lemma reaches_bind_keeps {A B} (I J : state → Prop) (m : M A) (k : A → M B) :
  keeps I m → (∀ a, reaches I J (k a)) → reaches I J (m ≫= k).
Proof.
  intros Hm Hk s Hs b s' Hrun. unfold mbind, M_bind in Hrun.
  specialize (Hm s Hs). destruct (m s) as [[a|e|] s1]; simpl in Hm; try done.
  by apply (Hk a s1 Hm b s').
Qed.

Lemma reaches_bind_then_keeps {A B} (I J : state → Prop) (m : M A) (k : A → M B) :
  reaches I J m → (∀ a, keeps J (k a)) → reaches I J (m ≫= k).
Proof.
  intros Hm Hk s Hs b s' Hrun. unfold mbind, M_bind in Hrun.
  specialize (Hm s Hs). destruct (m s) as [[a|e|] s1]; try done.
  specialize (Hk a s1 (Hm a s1 eq_refl)). by rewrite Hrun in Hk.
Qed.

(** The prepend of lines 360-364 writes into the object at [l0]. *)
Lemma prepend_system_prompt_writes sm S sbs l0 rest T bs :
  content sm = TextBlock S :: sbs →
  reaches (first_user_text l0 T bs)
          (first_user_text l0 (S +:+ blank_line +:+ T) bs)
          (prepend_system_prompt (Some sm) (l0 :: rest)).
Proof.
  intros Hsm s [Hb (m & Hm & Hr & Hc)] a s' Hrun.
  unfold prepend_system_prompt, mbind, M_bind, deref in Hrun.
  rewrite Hm, Hsm, Hc in Hrun. simpl in Hrun.
  rewrite bool_decide_eq_true_2 in Hrun by done. simpl in Hrun.
  injection Hrun as _ <-. split; [exact Hb |].
  eexists. simpl. split; [|split].
  - apply list_lookup_insert_eq. by eapply lookup_lt_Some.
  - unfold set_first_text. rewrite Hc. exact Hr.
  - unfold set_first_text. by rewrite Hc.
Qed.

Lemma handle_text_generation_writes bh sm S sbs l0 rest T bs streaming docs :
  system_message bh = Some sm →
  content sm = TextBlock S :: sbs →
  reaches (first_user_text l0 T bs)
          (first_user_text l0 (S +:+ blank_line +:+ T) bs)
          (handle_text_generation bh (l0 :: rest) streaming docs).
Proof.
  intros Hsys Hsm. unfold handle_text_generation. rewrite Hsys.
  apply reaches_bind_keeps;
    [by apply (keeps_document_panel _ (λ _, True)) | intros _].
  apply reaches_bind_then_keeps;
    [by apply (prepend_system_prompt_writes sm S sbs) | intros _].
  by apply (keeps_handle_text_tail _ (λ _, True)).
Qed.

Ltac keeps_true_step I :=
  lazymatch goal with
  | |- keeps _ (mret _) => apply (keeps_ret I)
  | |- keeps _ get => apply (keeps_get I)
  | |- keeps _ (answer _) => apply (keeps_answer I)
  | |- keeps _ (alloc _) => apply (keeps_alloc I (λ _, True))
  | |- keeps _ (modify (set_messages _)) =>
      apply (keeps_append_message I (λ _, True))
  | |- keeps _ (modify (set_bedrock_messages _)) =>
      apply (keeps_append_bedrock_message I (λ _, True))
  | |- keeps _ (emit _) => by apply (keeps_emit I (λ _, True))
  | |- keeps _ (_ ≫= _) => apply (keeps_bind I); [|intros ?]
  end.

(** A whole text turn, from a state whose first stored message is a user
    message. *)
Lemma on_prompt_text_writes
    bh kb polls model_id streaming_on s3_uri prompt sm S sbs l0 T bs :
  select_protocol model_id = TextProtocol →
  system_message bh = Some sm →
  content sm = TextBlock S :: sbs →
  reaches (first_user_text l0 T bs)
          (first_user_text l0 (S +:+ blank_line +:+ T) bs)
          (on_prompt bh kb polls model_id streaming_on s3_uri prompt).
Proof.
  intros Hproto Hsys Hsm. unfold select_protocol in Hproto.
  destruct (py_in "nova-canvas" model_id) eqn:Hcanvas; [done |].
  destruct (py_in "nova-reel" model_id) eqn:Hreel; [done |].
  unfold on_prompt, retrieve, ui. rewrite Hcanvas, Hreel. simpl.
  set (I := first_user_text l0 T bs).
  do 2 (apply reaches_bind_keeps; [keeps_true_step I | intros _]).
  apply reaches_bind_keeps; [repeat keeps_true_step I | intros docs].
  apply reaches_bind_keeps; [keeps_true_step I | intros s1].
  apply reaches_bind_keeps; [keeps_true_step I | intros l].
  apply reaches_bind_keeps; [keeps_true_step I | intros _].
  intros s Hs a s' Hrun. unfold mbind at 1, M_bind at 1, get in Hrun.
  pose proof Hs as [[rest Hb] _]. rewrite Hb in Hrun.
  by apply (handle_text_generation_writes bh sm S sbs l0 rest T bs
              streaming_on docs Hsys Hsm s Hs a s').
Qed.

(** C10: [full_messages] shares its message objects with the stored wire
    history, so the prepend of the system prompt is a write into the stored
    first message: after a text turn that returns, the first stored message
    is the same object and its text starts with the system text; a further
    text turn prepends the system text once more to that text. *)
Theorem system_prompt_accumulates
    bh kb model_id sm S sbs l0 T bs s streaming docs s1
    polls2 streaming2 s3_uri2 prompt2 :
  system_message bh = Some sm →
  content sm = TextBlock S :: sbs →
  first_user_text l0 T bs s →
  handle_text_generation bh (bedrock_messages s) streaming docs s = (Ret tt, s1) →
  first_user_text l0 (S +:+ blank_line +:+ T) bs s1
  ∧ (select_protocol model_id = TextProtocol →
     ∀ s2, on_prompt bh kb polls2 model_id streaming2 s3_uri2 prompt2 s1
           = (Ret tt, s2) →
           first_user_text l0 (S +:+ blank_line +:+ (S +:+ blank_line +:+ T)) bs s2).
Proof.
  intros Hsys Hsm Hs Hrun.
  assert (first_user_text l0 (S +:+ blank_line +:+ T) bs s1) as Hs1.
  { pose proof Hs as [[rest Hb] _]. rewrite Hb in Hrun.
    by apply (handle_text_generation_writes bh sm S sbs l0 rest T bs
                streaming docs Hsys Hsm s Hs tt s1). }
  split; [exact Hs1 |]. intros Hproto s2 Hrun2.
  by apply (on_prompt_text_writes bh kb polls2 model_id streaming2 s3_uri2
              prompt2 sm S sbs l0 _ bs Hproto Hsys Hsm s1 Hs1 tt s2).
Qed.

Lemma first_turn_state_first_user_text :
  first_user_text 0 "hi" [] first_turn_state.
Proof. split; [by exists [] | by exists (text_message "user" "hi")]. Defined.

Lemma system_prompt_accumulates_witness :
  first_user_text 0 ("Be brief." +:+ blank_line +:+ "hi") []
    (handle_text_generation claude_handler [0] true [] first_turn_state).2.
Proof.
  refine (proj1 (system_prompt_accumulates claude_handler sample_kb
                   "anthropic.claude-3-sonnet"
                   (text_message "system" "Be brief.") "Be brief." [] 0 "hi" []
                   first_turn_state true []
                   (handle_text_generation claude_handler [0] true []
                      first_turn_state).2
                   [] true None "again" eq_refl eq_refl
                   first_turn_state_first_user_text _)).
  vm_compute. reflexivity.
Defined.

(** ** The system prompt in the request *)

(** C3 does not hold on the non-streamed path: a turn with an "anthropic"
    model and the system prompt "Be brief." sends the system message as the
    leading element of the request and, in the first user block, the system
    text again, so the system text is merged twice; the streamed turn from
    the same state sends the prepended user block alone, so the two requests
    differ. *)
Theorem system_prompt_sent_twice :
  new_events first_turn_state
    (handle_text_generation claude_handler [0] false [] first_turn_state).2
  = [ EvInvoke [ text_message "system" "Be brief.";
                 text_message "user" ("Be brief." +:+ blank_line +:+ "hi") ];
      EvUi UiWrite "Hello!" ]
  ∧ new_events first_turn_state
      (handle_text_generation claude_handler [0] true [] first_turn_state).2
    = [ EvInvokeStream
          [ text_message "user" ("Be brief." +:+ blank_line +:+ "hi") ];
        EvUi UiMarkdown "Hel"; EvUi UiMarkdown "Hel"; EvUi UiMarkdown "Hello!" ].
Proof. split; vm_compute; reflexivity. Qed.

(** ** More on the polling loop *)

Lemma slept_app evs1 evs2 : slept (evs1 ++ evs2) = slept evs1 + slept evs2.
Proof.
  induction evs1 as [|[] evs1 IH]; simpl; try done. rewrite IH. lia.
Qed.

Lemma logged_logged evs1 evs2 s :
  logged evs2 (logged evs1 s) = logged (evs1 ++ evs2) s.
Proof. destruct s. state_eq. Qed.

Lemma logged_nil s : logged [] s = s.
Proof. destruct s. unfold logged, set_log. simpl. by rewrite app_nil_r. Qed.

(** X1: the loop has no bound of its own: as long as the world only gives
    answers that make it wait, it is still polling, it has reported nothing,
    the job is the same, and it has slept ten seconds per answer. *)
Theorem poll_loop_never_gives_up bh polls s job :
  video_job s = JobActive job →
  forallb obs_waiting polls = true →
  ∃ evs, poll_loop bh polls s = (Spin, logged evs s)
         ∧ slept evs = 10 * length polls
         ∧ Forall polling_event evs.
Proof.
  revert s. induction polls as [|o polls IH]; intros s Hjob Hwait.
  - exists []. split; [|done]. by rewrite logged_nil.
  - simpl in Hwait. apply andb_prop in Hwait as [Hw Hwait].
    rewrite poll_loop_cons. unfold obs_waiting in Hw.
    destruct (poll_step_cases bh o s job Hjob)
      as [p Hs Ha|p Hs Ha|e Hs Ha|err Hs Hf|Hs Hf];
      rewrite Hs in Hw; try rewrite Ha in Hw; try rewrite Hf in Hw; try done.
    + match goal with
      | |- context [poll_loop bh polls ?s1] =>
          destruct (IH s1 Hjob Hwait) as (evs & Hrun & Hslept & Hall)
      end.
      eexists. rewrite Hrun, !logged_logged. split; [reflexivity |].
      split; [rewrite !slept_app, Hslept; simpl; lia |].
      repeat (apply Forall_app; split); try done; by repeat constructor.
    + match goal with
      | |- context [poll_loop bh polls ?s1] =>
          destruct (IH s1 Hjob Hwait) as (evs & Hrun & Hslept & Hall)
      end.
      eexists. rewrite Hrun, !logged_logged. split; [reflexivity |].
      split; [rewrite !slept_app, Hslept; simpl; lia |].
      repeat (apply Forall_app; split); try done; by repeat constructor.
Qed.

Lemma poll_loop_never_gives_up_witness :
  ∃ evs, poll_loop reel_handler [obs_in_progress; obs_completed_no_artifact]
           polling_state = (Spin, logged evs polling_state)
         ∧ slept evs = 20
         ∧ Forall polling_event evs.
Proof.
  exact (poll_loop_never_gives_up reel_handler
           [obs_in_progress; obs_completed_no_artifact] polling_state
           sample_job eq_refl eq_refl).
Defined.

(** X2: the storage is asked in an iteration exactly when the backend has
    reported the status "Completed" in that iteration. *)
Theorem storage_checked_only_after_success bh o s job :
  video_job s = JobActive job →
  ∃ evs, log (poll_step bh o s).2 = log s ++ evs
         ∧ existsb is_storage_check evs = backend_success o.
Proof.
  intros Hjob.
  destruct (poll_step_cases bh o s job Hjob) as [p Hs ?|p Hs ?|e Hs ?|err Hs ?|Hs ?];
    rewrite Hs; by eexists.
Qed.

Lemma storage_checked_only_after_success_witness :
  ∃ evs, log (poll_step reel_handler obs_failed polling_state).2
         = log polling_state ++ evs
         ∧ existsb is_storage_check evs = backend_success obs_failed.
Proof.
  exact (storage_checked_only_after_success reel_handler obs_failed
           polling_state sample_job eq_refl).
Defined.

(** X3: a status answer that carries no status, or a status other than
    "Completed" and "Failed", makes the iteration wait, whatever else the
    answer holds: nothing is reported, the storage is not asked, and the
    status shown is the one received, or "Unknown" when there is none. *)
Theorem unknown_status_waits bh o s job r :
  video_job s = JobActive job →
  get_async_invoke o = Ok r →
  resp_status r ≠ Some "Completed" →
  resp_status r ≠ Some "Failed" →
  poll_step bh o s
  = (Ret Continue,
     logged
       [EvGetAsyncInvoke (invocation_arn job);
        EvUi UiInfo
          ("⏳ Generating Video... This can take up to 5 minutes. Status: "
           +:+ default "Unknown" (resp_status r))] s).
Proof.
  intros Hjob Hr Hc Hf.
  rewrite (poll_step_running bh o s job Hjob).
  - unfold backend_status_text. by rewrite Hr.
  - unfold backend_success. rewrite Hr. by apply bool_decide_eq_false_2.
  - unfold backend_failure. rewrite Hr. by rewrite bool_decide_eq_false_2.
Qed.

Lemma unknown_status_waits_witness :
  poll_step reel_handler obs_no_status polling_state
  = (Ret Continue,
     logged
       [EvGetAsyncInvoke (invocation_arn sample_job);
        EvUi UiInfo
          ("⏳ Generating Video... This can take up to 5 minutes. Status: "
           +:+ "Unknown")] polling_state).
Proof.
  apply (unknown_status_waits reel_handler obs_no_status polling_state sample_job
           {| resp_status := None; resp_failureMessage := Some "quota" |}
           eq_refl eq_refl); discriminate.
Defined.

(** X4: the status "Failed" ends the job whether or not the artifact is in the
    bucket; the report carries the failure message of the backend, and the
    word "None" when the answer has no such message. *)
Theorem failed_status_reports bh o s job r :
  video_job s = JobActive job →
  get_async_invoke o = Ok r →
  resp_status r = Some "Failed" →
  ends_with bh o s
    ("❌ Video generation failed: " +:+ py_str (resp_failureMessage r))
  ∧ (resp_failureMessage r = None →
     ends_with bh o s "❌ Video generation failed: None").
Proof.
  intros Hjob Hr Hf.
  assert (ends_with bh o s
            ("❌ Video generation failed: " +:+ py_str (resp_failureMessage r)))
    as Hends.
  { assert (backend_failure o = Some (resp_failureMessage r)) as Hfail
      by (unfold backend_failure; rewrite Hr; by rewrite bool_decide_eq_true_2).
    eexists. split; [by apply poll_step_failed | done]. }
  split; [exact Hends |]. intros Hnone. by rewrite Hnone in Hends.
Qed.

Lemma failed_status_reports_witness :
  ends_with reel_handler
    (obs_status "Failed" None (true, Some "j1/output.mp4")) polling_state
    "❌ Video generation failed: None".
Proof.
  exact (proj2 (failed_status_reports reel_handler
                  (obs_status "Failed" None (true, Some "j1/output.mp4"))
                  polling_state sample_job
                  {| resp_status := Some "Failed"; resp_failureMessage := None |}
                  eq_refl eq_refl eq_refl) eq_refl).
Defined.

(** ** The streamed answer *)




Lemma deref_all_snapshot s ls ms :
  snapshot s ls = Some ms → deref_all ls s = (Ret ms, s).
Proof.
  revert ms. induction ls as [|l ls IH]; intros ms Hsnap.
  - injection Hsnap as <-. done.
  - unfold snapshot in Hsnap. simpl in Hsnap.
    destruct (heap s !! l) as [m|] eqn:Hl; [|done]. simpl in Hsnap.
    destruct (mapM (λ l, heap s !! l) ls) as [ms'|] eqn:Hms; [|done].
    injection Hsnap as <-. simpl. unfold mbind, M_bind, deref.
    rewrite Hl. by rewrite (IH ms').
Qed.



(** ** What a text turn does to the histories *)

Lemma quiet_ret {A} (a : A) : quiet (mret a).
Proof. by intros s. Qed.

Lemma quiet_raise {A} e : quiet (@raise A e).
Proof. by intros s. Qed.

Lemma quiet_get : quiet get.
Proof. by intros s. Qed.

Lemma quiet_answer {A} (r : result A) : quiet (answer r).
Proof. by destruct r. Qed.

Lemma quiet_emit ev : quiet (emit ev).
Proof. by intros s. Qed.

Lemma quiet_deref l : quiet (deref l).
Proof. intros s. unfold deref. by destruct (heap s !! l). Qed.

Lemma quiet_store l m : quiet (store l m).
Proof.
  intros s. split; [|done]. unfold histories. simpl. by rewrite length_insert.
Qed.

Lemma quiet_bind {A B} (m : M A) (k : A → M B) :
  quiet m → (∀ a, quiet (k a)) → quiet (m ≫= k).
Proof.
  intros Hm Hk s. unfold mbind, M_bind. destruct (Hm s) as [Hh Hs].
  destruct (m s) as [[a|e|] s1]; simpl in *; [|done|done].
  destruct (Hk a s1) as [Hh' Hs']. split; [congruence | done].
Qed.

Ltac quiet_step :=
  lazymatch goal with
  | |- quiet (mret _) => apply quiet_ret
  | |- quiet (raise _) => apply quiet_raise
  | |- quiet get => apply quiet_get
  | |- quiet (answer _) => apply quiet_answer
  | |- quiet (deref _) => apply quiet_deref
  | |- quiet (store _ _) => apply quiet_store
  | |- quiet (emit _) => apply quiet_emit
  | |- quiet (ui _ _) => apply quiet_emit
  | |- quiet (_ ≫= _) => apply quiet_bind; [|intros ?]
  | |- quiet (match ?x with _ => _ end) => destruct x
  end.

Lemma quiet_deref_all ls : quiet (deref_all ls).
Proof. induction ls as [|l ls IH]; simpl; repeat quiet_step. apply IH. Qed.

Lemma quiet_for_each {A} (body : A → M unit) l :
  (∀ x, quiet (body x)) → quiet (for_each body l).
Proof.
  intros Hbody. induction l as [|x l IH]; simpl; repeat quiet_step; auto.
Qed.

Lemma quiet_first_text blocks : quiet (first_text blocks).
Proof. unfold first_text. repeat quiet_step. Qed.

Lemma quiet_consume_stream text stream : quiet (consume_stream text stream).
Proof.
  revert text. induction stream as [|ev stream IH]; intros text; simpl;
    repeat quiet_step. apply IH.
Qed.

Lemma quiet_document_panel : quiet document_panel.
Proof.
  unfold document_panel. repeat quiet_step.
  apply quiet_for_each. intros [file_name info]. unfold document_status.
  repeat quiet_step.
Qed.

Lemma quiet_prepend_system_prompt system_msg full_messages :
  quiet (prepend_system_prompt system_msg full_messages).
Proof.
  unfold prepend_system_prompt.
  repeat first [ apply quiet_first_text | quiet_step ].
Qed.

Lemma quiet_generate_text bh system_msg full_messages streaming :
  quiet (generate_text bh system_msg full_messages streaming).
Proof.
  unfold generate_text.
  repeat first
    [ apply quiet_first_text | apply quiet_consume_stream
    | apply quiet_deref_all | quiet_step ].
Qed.

Lemma quiet_sources_panel docs : quiet (sources_panel docs).
Proof.
  unfold sources_panel. repeat quiet_step.
  apply quiet_for_each. intros [i d]. apply quiet_emit.
Qed.

Lemma text_post_bind {A} bh h (m : M A) (k : A → M unit) s :
  quiet m →
  histories s = h →
  (∀ a s1, histories s1 = h → text_post bh h (k a s1)) →
  text_post bh h ((m ≫= k) s).
Proof.
  intros Hm Hs Hk. unfold mbind, M_bind. destruct (Hm s) as [Hh Hspin].
  destruct (m s) as [[a|e|] s1]; simpl in *.
  - apply Hk. congruence.
  - subst h. unfold histories in *. injection Hh as Hm1 Hb1 Hl1. by split.
  - done.
Qed.

Lemma update_chat_history_post bh response s :
  text_post bh (histories s) (update_chat_history bh response s).
Proof.
  destruct s. simpl. exists response. split; [done |]. split; [done |].
  by rewrite lookup_app_r, Nat.sub_diag.
Qed.

Lemma handle_text_generation_post bh messages streaming docs s :
  text_post bh (histories s) (handle_text_generation bh messages streaming docs s).
Proof.
  unfold handle_text_generation.
  apply text_post_bind; [apply quiet_document_panel | done | intros _ s1 H1].
  apply text_post_bind; [apply quiet_prepend_system_prompt | done | intros _ s2 H2].
  apply text_post_bind; [apply quiet_generate_text | done | intros fr s3 H3].
  apply text_post_bind; [apply quiet_sources_panel | done | intros _ s4 H4].
  rewrite <- H4. apply update_chat_history_post.
Qed.

Lemma on_prompt_text_eq bh kb polls model_id streaming_on s3_uri prompt s :
  select_protocol model_id = TextProtocol →
  on_prompt bh kb polls model_id streaming_on s3_uri prompt s
  = match get_relevant_docs kb prompt with
    | Ok docs =>
        handle_text_generation bh (bedrock_messages s ++ [length (heap s)])
          streaming_on docs (user_stored bh kb prompt docs s)
    | Exn e =>
        (Raise e,
         logged [EvUi UiWrite prompt; EvKbQuery prompt]
           (set_messages
              (λ l, l ++ [ {| turn_role := "user"; turn_content := DStr prompt |} ])
              s))
    end.
Proof.
  intros Hproto. unfold select_protocol in Hproto.
  destruct (py_in "nova-canvas" model_id) eqn:Hcanvas; [done |].
  destruct (py_in "nova-reel" model_id) eqn:Hreel; [done |].
  destruct s. unfold on_prompt, retrieve, mbind, M_bind. simpl.
  rewrite Hcanvas, Hreel. simpl.
  destruct (get_relevant_docs kb prompt) as [docs|e]; simpl.
  - unfold user_stored. simpl. f_equal. state_eq.
  - f_equal. state_eq.
Qed.

(** X6: a text turn always comes back.  When it returns, the prompt and the
    answer are at the end of the display history and the user message and
    the assistant message at the end of the wire history.  When it raises,
    the prompt stays in the display history without an answer; the user
    message stays in the wire history as well, unless it was the query of the
    index that raised. *)
Theorem text_turn_histories bh kb polls model_id streaming_on s3_uri prompt s :
  select_protocol model_id = TextProtocol →
  text_turn_post bh kb prompt s
    (on_prompt bh kb polls model_id streaming_on s3_uri prompt s).
Proof.
  intros Hproto. rewrite on_prompt_text_eq by done.
  destruct (get_relevant_docs kb prompt) as [docs|e] eqn:Hdocs.
  - pose proof (handle_text_generation_post bh
                  (bedrock_messages s ++ [length (heap s)]) streaming_on docs
                  (user_stored bh kb prompt docs s)) as Hpost.
    destruct (handle_text_generation _ _ _ _ _) as [[[]|e|] s']; simpl in *.
    + destruct Hpost as (response & Hm & Hb & Hh). exists response.
      rewrite length_app, Nat.add_1_r in Hb, Hh.
      rewrite Hm, Hb, <- !app_assoc. done.
    + destruct Hpost as [Hm Hb]. split; [done |]. by right.
    + done.
  - simpl. split; [done |]. by left.
Qed.

(** The model call is throttled: the prompt stays unanswered in both
    histories. *)
Lemma text_turn_histories_witness :
  text_turn_post failing_handler sample_kb "hi" idle_state
    (on_prompt failing_handler sample_kb [] "anthropic.claude-3-sonnet" true
       None "hi" idle_state).
Proof.
  exact (text_turn_histories failing_handler sample_kb []
           "anthropic.claude-3-sonnet" true None "hi" idle_state eq_refl).
Defined.

(** ** The document panel and a first block without text *)

Lemma for_each_document_status l s :
  for_each document_status l s = (Ret tt, logged (document_status_event <$> l) s).
Proof.
  revert s. induction l as [|[file_name info] l IH]; intros s.
  - by rewrite logged_nil.
  - simpl. unfold mbind, M_bind, document_status, document_status_event.
    simpl. destruct (processed info); simpl; rewrite IH; f_equal;
      destruct s; state_eq.
Qed.

Lemma document_panel_run s :
  document_panel s = (Ret tt, logged (document_events s) s).
Proof.
  unfold document_panel, document_events, mbind, M_bind. simpl.
  destruct (bool_decide (uploaded_files s ≠ [])
            && bool_decide (uploaded_document_content s ≠ [])).
  - simpl. rewrite for_each_document_status. f_equal. destruct s. state_eq.
  - by rewrite logged_nil.
Qed.

Lemma document_events_no_model_call s :
  existsb is_model_call (document_events s) = false.
Proof.
  unfold document_events.
  destruct (bool_decide (uploaded_files s ≠ [])
            && bool_decide (uploaded_document_content s ≠ [])); [|done].
  simpl. induction (uploaded_document_content s) as [|[n i] l IH]; [done |].
  simpl. unfold document_status_event at 1. simpl. by destruct (processed i).
Qed.

(** X7: with a system prompt configured, a text turn in a session whose first
    stored message is a user message that starts with a block without text
    raises KeyError after the query of the index and before any call of the
    model, whatever the new prompt is. *)
Theorem first_block_without_text_raises
    bh kb polls model_id streaming_on s3_uri prompt s
    sm S sbs l0 rest m0 kind payload bs docs :
  select_protocol model_id = TextProtocol →
  system_message bh = Some sm →
  content sm = TextBlock S :: sbs →
  bedrock_messages s = l0 :: rest →
  heap s !! l0 = Some m0 →
  role m0 = "user" →
  content m0 = MediaBlock kind payload :: bs →
  get_relevant_docs kb prompt = Ok docs →
  on_prompt bh kb polls model_id streaming_on s3_uri prompt s
  = (Raise "KeyError: 'text'",
     logged (document_events (user_stored bh kb prompt docs s))
       (user_stored bh kb prompt docs s))
  ∧ existsb is_model_call
      (document_events (user_stored bh kb prompt docs s)) = false.
Proof.
  intros Hproto Hsys Hsm Hb Hl0 Hrole Hcontent Hdocs.
  split; [|apply document_events_no_model_call].
  rewrite on_prompt_text_eq, Hdocs by done.
  unfold handle_text_generation. unfold mbind at 1, M_bind at 1.
  rewrite document_panel_run, Hsys, Hb. simpl.
  unfold mbind at 1, M_bind at 1.
  unfold prepend_system_prompt, mbind, M_bind, deref. simpl.
  rewrite (lookup_app_l_Some _ _ _ _ Hl0). simpl.
  rewrite bool_decide_eq_true_2 by done. by rewrite Hsm, Hcontent.
Qed.

Lemma first_block_without_text_raises_witness :
  (on_prompt claude_handler sample_kb [] "anthropic.claude-3-sonnet" true None
     "and now" media_first_state).1 = Raise "KeyError: 'text'".
Proof.
  rewrite (proj1 (first_block_without_text_raises claude_handler sample_kb []
                    "anthropic.claude-3-sonnet" true None "and now"
                    media_first_state (text_message "system" "Be brief.")
                    "Be brief." [] 0 [] _ "image" "png"
                    [TextBlock "what is this"] []
                    eq_refl eq_refl eq_refl eq_refl eq_refl eq_refl eq_refl
                    eq_refl)).
  reflexivity.
Defined.

(** ** Stored messages a turn leaves alone *)

#[export] Instance untouched_stable h0 l0 : Stable (untouched h0 l0) (λ _, True).
Proof.
  split; try (intros s ? Hs; exact Hs); try (intros s ? ? Hs; exact Hs).
  intros s m' Hs l m Hne Hl. simpl. apply lookup_app_l_Some. by apply Hs.
Qed.

Lemma keeps_prepend_untouched h0 l0 system_msg rest :
  keeps (untouched h0 l0) (prepend_system_prompt system_msg (l0 :: rest)).
Proof.
  unfold prepend_system_prompt. destruct system_msg as [sm|]; [|by intros s].
  apply keeps_bind; [apply keeps_deref | intros m0].
  destruct (bool_decide (role m0 = "user")); [|by intros s].
  apply keeps_bind; [apply keeps_first_text | intros ?].
  apply keeps_bind; [apply keeps_first_text | intros ?].
  intros s Hs l m Hne Hl. simpl. rewrite list_lookup_insert_ne by done.
  by apply Hs.
Qed.

Lemma keeps_handle_text_untouched h0 l0 bh messages streaming docs :
  (∀ l rest, messages = l :: rest → l = l0) →
  keeps (untouched h0 l0) (handle_text_generation bh messages streaming docs).
Proof.
  intros Hhead. unfold handle_text_generation.
  apply keeps_bind; [by apply (keeps_document_panel _ (λ _, True)) | intros _].
  apply keeps_bind; [| intros _; by apply (keeps_handle_text_tail _ (λ _, True))].
  destruct messages as [|l rest].
  - unfold prepend_system_prompt. by destruct (system_message bh); intros s.
  - rewrite (Hhead l rest eq_refl). apply keeps_prepend_untouched.
Qed.

(** X8: a turn never removes a stored message object and never changes one,
    except the first message of the wire history. *)
Theorem turn_touches_only_first
    bh kb polls model_id streaming_on s3_uri prompt s l m :
  l ≠ first_loc s →
  heap s !! l = Some m →
  heap (on_prompt bh kb polls model_id streaming_on s3_uri prompt s).2 !! l
  = Some m.
Proof.
  intros Hne Hl.
  assert (select_protocol model_id = TextProtocol
          ∨ select_protocol model_id ≠ TextProtocol) as [Htext|Hmedia]
    by (destruct (select_protocol model_id); by auto).
  - rewrite on_prompt_text_eq by done.
    destruct (get_relevant_docs kb prompt) as [docs|e]; [|done].
    apply (keeps_handle_text_untouched (heap s) (first_loc s) bh
             (bedrock_messages s ++ [length (heap s)]) streaming_on docs);
      [| |done|done].
    { unfold first_loc. intros l1 rest1 Hl1.
      destruct (bedrock_messages s); simpl in *; congruence. }
    intros l' m' _ Hl'. simpl. by apply lookup_app_l_Some.
  - apply (keeps_on_prompt_media (untouched (heap s) (first_loc s)) (λ _, True));
      try done. by intros l' m' _ Hl'.
Qed.

Lemma turn_touches_only_first_witness :
  heap (on_prompt claude_handler sample_kb [] "anthropic.claude-3-sonnet" true
          None "again" two_turn_state).2 !! 1
  = Some (text_message "assistant" "Hello!").
Proof.
  apply (turn_touches_only_first claude_handler sample_kb []
           "anthropic.claude-3-sonnet" true None "again" two_turn_state 1);
    [discriminate | reflexivity].
Defined.

(** ** An image turn *)

Lemma snapshot_extend s ls ms m :
  snapshot s ls = Some ms →
  mapM (λ l, (heap s ++ [m]) !! l) (ls ++ [length (heap s)]) = Some (ms ++ [m]).
Proof.
  intros Hsnap. apply mapM_Some. apply mapM_Some in Hsnap.
  apply Forall2_app.
  - eapply Forall2_impl; [exact Hsnap |]. intros l x Hl.
    by apply lookup_app_l_Some.
  - constructor; [|constructor].
    by rewrite lookup_app_r, Nat.sub_diag.
Qed.

(** X10: an image turn asks no index.  The model gets the whole stored history
    followed by the new user message; its image goes, encoded, into the
    display history only, and the wire history gets a fixed sentence.  When
    the call fails, or does not answer with an image, the turn raises and the
    prompt stays unanswered in both histories. *)
Theorem image_turn bh kb polls model_id streaming_on s3_uri prompt s old :
  select_protocol model_id = ImageProtocol →
  py_in "nova-reel" model_id = false →
  snapshot s (bedrock_messages s) = Some old →
  on_prompt bh kb polls model_id streaming_on s3_uri prompt s
  = image_turn_result bh prompt s old.
Proof.
  intros Hproto Hreel Hsnap. unfold select_protocol in Hproto.
  destruct (py_in "nova-canvas" model_id) eqn:Hcanvas;
    [|by destruct (py_in "nova-reel" model_id)].
  pose proof (snapshot_extend s _ _
                (user_message bh prompt None (uploaded_files s)) Hsnap) as Hext.
  destruct s as [ms bms udc vj ufs h lg]. simpl in *.
  unfold on_prompt, retrieve, mbind, M_bind. simpl.
  rewrite Hcanvas, Hreel. simpl.
  unfold handle_image_generation, mbind, M_bind.
  erewrite deref_all_snapshot by exact Hext. simpl.
  unfold image_turn_result, image_request. simpl.
  destruct (invoke_model bh (old ++ [user_message bh prompt None ufs]))
    as [[content|data]|e]; simpl.
  - unfold raise, image_asked, image_request, set_log, set_bedrock_messages,
      set_heap, set_messages.
    cbn [messages bedrock_messages uploaded_document_content video_job uploaded_files heap log].
    rewrite <- app_assoc. reflexivity.
  - unfold update_chat_history, mbind, M_bind, alloc, modify, image_answered,
      image_request.
    cbv beta iota delta
      [set_log set_bedrock_messages set_heap set_messages messages
       bedrock_messages uploaded_document_content video_job uploaded_files
       heap log mret M_ret response_text].
    rewrite length_app, Nat.add_1_r, <- !app_assoc. reflexivity.
  - unfold raise, image_asked, image_request, set_log, set_bedrock_messages,
      set_heap, set_messages.
    cbn [messages bedrock_messages uploaded_document_content video_job
         uploaded_files heap log].
    rewrite <- app_assoc. reflexivity.
Qed.

Lemma image_turn_witness :
  on_prompt canvas_handler sample_kb [] "amazon.nova-canvas-v1:0" false None
    "a cat" two_turn_state
  = (Ret tt,
     image_answered canvas_handler "a cat" two_turn_state
       [text_message "user" "hi"; text_message "assistant" "Hello!"] "PNG...").
Proof.
  exact (image_turn canvas_handler sample_kb [] "amazon.nova-canvas-v1:0" false
           None "a cat" two_turn_state
           [text_message "user" "hi"; text_message "assistant" "Hello!"]
           eq_refl eq_refl eq_refl).
Defined.

(** ** Dictionaries and the knowledge bases of a region *)

Lemma dict_get_set_eq {V} key (v : V) d : dict_get key (dict_set key v d) = Some v.
Proof.
  induction d as [|[k v'] d IH]; simpl.
  - by rewrite bool_decide_eq_true_2.
  - destruct (decide (key = k)) as [Hk|Hk].
    + rewrite (bool_decide_eq_true_2 _ Hk). simpl.
      by rewrite bool_decide_eq_true_2.
    + rewrite (bool_decide_eq_false_2 _ Hk). simpl.
      by rewrite (bool_decide_eq_false_2 _ Hk).
Qed.

Lemma dict_get_set_ne {V} key key' (v : V) d :
  key' ≠ key → dict_get key' (dict_set key v d) = dict_get key' d.
Proof.
  intros Hne. induction d as [|[k v'] d IH]; simpl.
  - by rewrite bool_decide_eq_false_2.
  - destruct (decide (key = k)) as [Hk|Hk].
    + rewrite (bool_decide_eq_true_2 _ Hk). simpl. subst k.
      by rewrite !bool_decide_eq_false_2.
    + rewrite (bool_decide_eq_false_2 _ Hk). simpl. by rewrite IH.
Qed.

Lemma dict_keys_set {V} key (v : V) d :
  dict_keys (dict_set key v d)
  = if bool_decide (key ∈ dict_keys d) then dict_keys d else dict_keys d ++ [key].
Proof.
  unfold dict_keys. induction d as [|[k v'] d IH]; [done |].
  cbn [dict_set fmap list_fmap fst].
  destruct (decide (key = k)) as [Hk|Hk].
  - rewrite (bool_decide_eq_true_2 _ Hk). subst k.
    rewrite bool_decide_eq_true_2; [done | by left].
  - rewrite (bool_decide_eq_false_2 _ Hk). cbn [fmap list_fmap fst].
    rewrite IH. destruct (decide (key ∈ d.*1)) as [Hin|Hin].
    + rewrite (bool_decide_eq_true_2 _ Hin).
      rewrite bool_decide_eq_true_2; [done | by right].
    + rewrite (bool_decide_eq_false_2 _ Hin).
      rewrite bool_decide_eq_false_2; [done |].
      intros Hel. apply elem_of_cons in Hel as [?|?]; done.
Qed.

Lemma dict_keys_set_NoDup {V} key (v : V) d :
  NoDup (dict_keys d) → NoDup (dict_keys (dict_set key v d)).
Proof.
  intros Hnd. rewrite dict_keys_set. case_bool_decide as Hin; [done |].
  apply NoDup_app. split; [done |]. split; [|apply NoDup_singleton].
  intros x Hx Hx'. apply list_elem_of_singleton in Hx'. by subst x.
Qed.

Lemma get_all_kbs_snoc summaries kb :
  get_all_kbs {| knowledgeBaseSummaries := summaries ++ [kb] |}
  = dict_set (name kb) (knowledgeBaseId kb)
      (get_all_kbs {| knowledgeBaseSummaries := summaries |}).
Proof. unfold get_all_kbs. simpl. by rewrite foldl_app. Qed.

Lemma get_all_kbs_spec (all_kb : kb_listing) :
  NoDup (dict_keys (get_all_kbs all_kb))
  ∧ (∀ n, n ∈ dict_keys (get_all_kbs all_kb)
          ↔ ∃ kb, kb ∈ knowledgeBaseSummaries all_kb ∧ name kb = n)
  ∧ (∀ n, dict_get n (get_all_kbs all_kb)
          = last_id n (knowledgeBaseSummaries all_kb)).
Proof.
  destruct all_kb as [summaries].
  induction summaries as [|kb summaries IH] using rev_ind; simpl.
  - split; [constructor |]. split; [|done].
    intros n. split; [by intros ?%elem_of_nil | by intros (kb & ?%elem_of_nil & _)].
  - destruct IH as (Hnd & Hkeys & Hget). rewrite get_all_kbs_snoc.
    split; [by apply dict_keys_set_NoDup |]. split.
    + intros n. rewrite dict_keys_set. setoid_rewrite elem_of_app.
      case_bool_decide as Hin.
      * rewrite Hkeys. split.
        -- intros (kb' & Hel & Hn). exists kb'. by auto.
        -- intros (kb' & [Hel | Hel%list_elem_of_singleton] & Hn).
           ++ by exists kb'.
           ++ subst kb'. subst n. by apply Hkeys.
      * rewrite elem_of_app, Hkeys, list_elem_of_singleton. split.
        -- intros [(kb' & Hel & Hn) | ->].
           ++ exists kb'. by auto.
           ++ exists kb. split; [right; by apply list_elem_of_singleton | done].
        -- intros (kb' & [Hel | Hel%list_elem_of_singleton] & Hn).
           ++ left. by exists kb'.
           ++ right. by subst.
    + intros n. unfold last_id. rewrite List.filter_app. simpl.
      case_bool_decide as Hn.
      * subst n. rewrite dict_get_set_eq, last_snoc. done.
      * rewrite dict_get_set_ne by done. rewrite app_nil_r. apply Hget.
Qed.

(** X12: the dict of knowledge bases has every name of the listing once; a
    name carries the identifier of the last summary with that name, so of
    two knowledge bases with one name only the later one can be chosen. *)
Theorem get_all_kbs_last_wins (all_kb : kb_listing) :
  NoDup (dict_keys (get_all_kbs all_kb))
  ∧ (∀ n, n ∈ dict_keys (get_all_kbs all_kb)
          ↔ ∃ kb, kb ∈ knowledgeBaseSummaries all_kb ∧ name kb = n)
  ∧ (∀ n, dict_get n (get_all_kbs all_kb)
          = last_id n (knowledgeBaseSummaries all_kb)).
Proof. apply get_all_kbs_spec. Qed.

Lemma get_all_kbs_last_wins_witness :
  dict_get "docs"
    (get_all_kbs
       {| knowledgeBaseSummaries :=
            [ {| name := "docs"; knowledgeBaseId := "KB1" |};
              {| name := "faq"; knowledgeBaseId := "KB2" |};
              {| name := "docs"; knowledgeBaseId := "KB3" |} ] |})
  = Some "KB3".
Proof.
  rewrite (proj2 (proj2 (get_all_kbs_last_wins _))). reflexivity.
Defined.

(** X13: the sidebar offers "None" and the names of the dict.  For every such
    choice the lookup of main finds a knowledge base or none, and never
    raises; the choice "None" always means no knowledge base, so a knowledge
    base that is itself named "None" cannot be used. *)
Theorem selected_kb_of_offered (all_kb : kb_listing) (kb_selection : string) :
  kb_selection ∈ "None" :: dict_keys (get_all_kbs all_kb) →
  selected_kb (get_all_kbs all_kb) kb_selection
  = Ok (if bool_decide (kb_selection = "None") then None
        else last_id kb_selection (knowledgeBaseSummaries all_kb))
  ∧ (kb_selection ≠ "None" →
     ∃ kb_id, selected_kb (get_all_kbs all_kb) kb_selection = Ok (Some kb_id)).
Proof.
  intros Hoffered.
  destruct (get_all_kbs_spec all_kb) as (_ & Hkeys & Hget).
  unfold selected_kb. case_bool_decide as Hnone.
  - rewrite bool_decide_eq_false_2 by done.
    apply elem_of_cons in Hoffered as [?|Hin]; [done |].
    destruct (dict_get kb_selection (get_all_kbs all_kb)) as [kb_id|] eqn:Hlk.
    + rewrite <- Hget, Hlk. split; [done | by exists kb_id].
    + exfalso. apply Hkeys in Hin as (kb & Hel & Hname).
      rewrite Hget in Hlk. unfold last_id in Hlk.
      assert (kb ∈ List.filter (λ kb, bool_decide (name kb = kb_selection))
                     (knowledgeBaseSummaries all_kb)) as Hfil.
      { apply list_elem_of_In, filter_In. split; [by apply list_elem_of_In |].
        by apply bool_decide_eq_true_2. }
      destruct (List.filter _ _) as [|x l] using rev_ind;
        [by apply elem_of_nil in Hfil |].
      by rewrite last_snoc in Hlk.
  - rewrite bool_decide_eq_true_2 by done. split; [done | done].
Qed.

Lemma selected_kb_of_offered_witness :
  selected_kb
    (get_all_kbs
       {| knowledgeBaseSummaries :=
            [ {| name := "None"; knowledgeBaseId := "KB0" |};
              {| name := "docs"; knowledgeBaseId := "KB1" |} ] |})
    "None"
  = Ok None.
Proof.
  exact (proj1 (selected_kb_of_offered
                  {| knowledgeBaseSummaries :=
                       [ {| name := "None"; knowledgeBaseId := "KB0" |};
                         {| name := "docs"; knowledgeBaseId := "KB1" |} ] |}
                  "None" ltac:(by left))).
Defined.

(** ** The parameter bundle and the handler of a turn *)

(** X11: the bundle given to the handler object and the handler function that
    serves the turn are picked by two separate tests on the identifier; they
    agree for every identifier: the image handler works with the image
    bundle, the video handler with the video bundle, and the text handler
    with the vendor bundle when the identifier contains "anthropic" and with
    the generic bundle otherwise. *)
Theorem select_params_agrees_with_protocol {P : Type}
    (cfg : configs P) (model_id : string) :
  select_params cfg model_id = bundle_of cfg model_id.
Proof.
  unfold select_params, bundle_of, select_protocol, matching, model_params.
  cbn [List.filter fst].
  destruct (py_in "nova-canvas" model_id); [done |].
  destruct (py_in "nova-reel" model_id); [done |].
  destruct (py_in "anthropic" model_id); [done |].
  by destruct (py_in "nova" model_id).
Qed.

(** ** Turns without a system prompt *)

#[export] Instance intact_stable h0 : Stable (intact h0) (λ _, True).
Proof.
  split; try (intros s ? Hs; exact Hs); try (intros s ? ? Hs; exact Hs).
  intros s m' Hs l m Hl. simpl. apply lookup_app_l_Some. by apply Hs.
Qed.

Lemma keeps_handle_text_intact h0 bh messages streaming docs :
  system_message bh = None →
  keeps (intact h0) (handle_text_generation bh messages streaming docs).
Proof.
  intros Hsys. unfold handle_text_generation. rewrite Hsys.
  apply keeps_bind; [by apply (keeps_document_panel _ (λ _, True)) | intros _].
  apply keeps_bind; [by intros s | intros _].
  by apply (keeps_handle_text_tail _ (λ _, True)).
Qed.

(** X9: when no system prompt is configured, a turn changes no stored message
    object at all, whatever the protocol and however the turn ends. *)
Theorem no_system_prompt_no_write
    bh kb polls model_id streaming_on s3_uri prompt s l m :
  system_message bh = None →
  heap s !! l = Some m →
  heap (on_prompt bh kb polls model_id streaming_on s3_uri prompt s).2 !! l
  = Some m.
Proof.
  intros Hsys Hl.
  assert (select_protocol model_id = TextProtocol
          ∨ select_protocol model_id ≠ TextProtocol) as [Htext|Hmedia]
    by (destruct (select_protocol model_id); by auto).
  - rewrite on_prompt_text_eq by done.
    destruct (get_relevant_docs kb prompt) as [docs|e]; [|done].
    apply (keeps_handle_text_intact (heap s) bh _ streaming_on docs Hsys);
      [|done].
    intros l' m' Hl'. simpl. by apply lookup_app_l_Some.
  - apply (keeps_on_prompt_media (intact (heap s)) (λ _, True)); try done.
    by intros l' m' Hl'.
Qed.

Lemma no_system_prompt_no_write_witness :
  heap (on_prompt failing_handler sample_kb [] "anthropic.claude-3-sonnet" true
          None "again" two_turn_state).2 !! 0
  = Some (text_message "user" "hi").
Proof.
  exact (no_system_prompt_no_write failing_handler sample_kb []
           "anthropic.claude-3-sonnet" true None "again" two_turn_state 0
           (text_message "user" "hi") eq_refl eq_refl).
Defined.

(** ** setup_sidebar (lines 62-144) *)

Ltac state_cbv :=
  cbv beta iota delta
    [logged reported set_log set_heap set_messages set_bedrock_messages
     set_video_job set_uploaded_document_content set_uploaded_files
     messages bedrock_messages uploaded_document_content video_job
     uploaded_files heap log].

Lemma process_upload_run lower f s :
  process_upload lower f s
  = (Ret tt,
     logged (upload_events lower f)
       (set_uploaded_document_content
          (record_pdf lower (uploaded_document_content s) f) s)).
Proof.
  destruct s as [ms bms udc vj ufs h lg].
  unfold process_upload, upload_events, record_pdf, mbind, M_bind, ui, emit,
    modify.
  destruct (bool_decide (lower (file_suffix f) = "pdf")); state_cbv;
    rewrite <- ?app_assoc; reflexivity.
Qed.

Lemma for_each_process_upload lower fs s :
  for_each (process_upload lower) fs s
  = (Ret tt,
     logged (concat (upload_events lower <$> fs))
       (set_uploaded_document_content
          (foldl (record_pdf lower) (uploaded_document_content s) fs) s)).
Proof.
  revert s. induction fs as [|f fs IH]; intros s.
  - destruct s. cbn [for_each fmap list_fmap concat foldl]. state_cbv.
    by rewrite app_nil_r.
  - cbn [for_each fmap list_fmap concat foldl]. unfold mbind, M_bind.
    rewrite process_upload_run, IH. destruct s. state_cbv.
    by rewrite <- app_assoc.
Qed.

Lemma elem_of_dict_keys_set {V} x key (v : V) d :
  x ∈ dict_keys (dict_set key v d) ↔ x ∈ dict_keys d ∨ x = key.
Proof.
  rewrite dict_keys_set. case_bool_decide as Hin.
  - split; [by left | intros [?| ->]; done].
  - rewrite elem_of_app, list_elem_of_singleton. done.
Qed.

Lemma dict_get_set {V} x key (v : V) d :
  dict_get x (dict_set key v d)
  = if bool_decide (x = key) then Some v else dict_get x d.
Proof.
  case_bool_decide as Hx.
  - subst x. apply dict_get_set_eq.
  - by apply dict_get_set_ne.
Qed.

Lemma fold_record_pdf_keys lower fs d x :
  x ∈ dict_keys (foldl (record_pdf lower) d fs)
  ↔ x ∈ dict_keys d
    ∨ ∃ f, f ∈ fs ∧ file_name f = x ∧ lower (file_suffix f) = "pdf".
Proof.
  revert d. induction fs as [|f fs IH]; intros d; simpl.
  - split; [by left | intros [?|(f & ?%elem_of_nil & _)]; done].
  - rewrite IH. unfold record_pdf. case_bool_decide as Hpdf.
    + rewrite elem_of_dict_keys_set. split.
      * intros [[?| ->]|(f' & Hel & Hn & Hp)]; [by left | |].
        -- right. exists f. split; [by left | done].
        -- right. exists f'. split; [by right | done].
      * intros [?|(f' & Hel & Hn & Hp)]; [by left; left |].
        apply elem_of_cons in Hel as [->|Hel].
        -- left. by right.
        -- right. by exists f'.
    + split.
      * intros [?|(f' & Hel & Hn & Hp)]; [by left |].
        right. exists f'. split; [by right | done].
      * intros [?|(f' & Hel & Hn & Hp)]; [by left |].
        apply elem_of_cons in Hel as [->|Hel]; [done |].
        right. by exists f'.
Qed.

Lemma fold_record_pdf_get lower fs d x info :
  dict_get x (foldl (record_pdf lower) d fs) = Some info →
  dict_get x d = Some info ∨ (processed info = true ∧ extension info = "pdf").
Proof.
  revert d. induction fs as [|f fs IH]; intros d Hget; simpl in Hget.
  - by left.
  - apply IH in Hget as [Hget|?]; [|by right].
    unfold record_pdf in Hget. case_bool_decide as Hpdf; [|by left].
    rewrite dict_get_set in Hget. case_bool_decide; [|by left].
    injection Hget as <-. right. by rewrite Hpdf.
Qed.

Lemma setup_sidebar_documents lower file_eqb w account s :
  uploaded_document_content (setup_sidebar lower file_eqb w account s).2
  = if processes_upload file_eqb w s
    then foldl (record_pdf lower) (uploaded_document_content s) (w_files w)
    else uploaded_document_content s.
Proof.
  unfold setup_sidebar, processes_upload, mbind, M_bind.
  destruct (py_in "Nova Reel" (w_model w)).
  - rewrite orb_true_r. simpl. by destruct account.
  - destruct (py_in "Nova Canvas" (w_model w)); [done |]. simpl.
    destruct (bool_decide (w_files w ≠ [])
              && negb (list_eqb file_eqb (w_files w) (uploaded_files s)));
      [|done].
    simpl. by rewrite for_each_process_upload.
Qed.

(** X14: for a model whose display name contains "Nova Reel", the sidebar
    returns streaming off, no knowledge base and an output location that is
    never empty: "s3://" followed by the content of the text box, or by the
    default bucket of the account when the box is empty.  The files of the
    uploader replace the stored ones and the record of documents is left
    alone. *)
Theorem sidebar_video_output_location lower file_eqb w account_id s :
  py_in "Nova Reel" (w_model w) = true →
  ∃ location,
    setup_sidebar lower file_eqb w (Ok account_id) s
    = (Ret (w_region w, w_model w, false, "None", Some ("s3://" +:+ location)),
       set_uploaded_files (w_files w) s)
    ∧ truthy (Some ("s3://" +:+ location)) = true
    ∧ (w_bucket_path w ≠ "" → location = w_bucket_path w)
    ∧ (w_bucket_path w = "" →
       location = "bedrock-video-generation-us-east-1-" +:+ py_str account_id).
Proof.
  intros Hreel. eexists. split; [|split; [done|]].
  - unfold setup_sidebar, mbind, M_bind. rewrite Hreel, orb_true_r. simpl.
    reflexivity.
  - by destruct (w_bucket_path w).
Qed.

Lemma sidebar_video_output_location_witness :
  ∃ location,
    setup_sidebar id same_name video_widgets (Ok (Some "123456789012")) idle_state
    = (Ret ("N. Virginia", "Amazon Nova Reel", false, "None",
            Some ("s3://" +:+ location)),
       set_uploaded_files [] idle_state)
    ∧ truthy (Some ("s3://" +:+ location)) = true
    ∧ (w_bucket_path video_widgets ≠ "" → location = w_bucket_path video_widgets)
    ∧ (w_bucket_path video_widgets = "" →
       location = "bedrock-video-generation-us-east-1-"
                  +:+ py_str (Some "123456789012")).
Proof.
  exact (sidebar_video_output_location id same_name video_widgets
           (Some "123456789012") idle_state eq_refl).
Defined.

(** X15: the sidebar never removes an entry from the record of uploaded
    documents: every name recorded before a run is recorded after it, also
    when its file is no longer among the uploaded files.  A name that is new
    after the run is the name of an uploaded file whose lower-cased extension
    is "pdf", and an entry that is new or changed is a processed "pdf" entry.
    Nothing at all is recorded for an image or a video model, without files,
    or when the files are the stored ones. *)
Theorem sidebar_documents_only_grow lower file_eqb w account s :
  (∀ k, k ∈ dict_keys (uploaded_document_content s) →
        k ∈ dict_keys
              (uploaded_document_content
                 (setup_sidebar lower file_eqb w account s).2))
  ∧ (∀ k, k ∈ dict_keys
                (uploaded_document_content
                   (setup_sidebar lower file_eqb w account s).2) →
          k ∈ dict_keys (uploaded_document_content s)
          ∨ ∃ f, f ∈ w_files w ∧ file_name f = k
                 ∧ lower (file_suffix f) = "pdf")
  ∧ (∀ k info,
       dict_get k (uploaded_document_content
                     (setup_sidebar lower file_eqb w account s).2) = Some info →
       dict_get k (uploaded_document_content s) = Some info
       ∨ (processed info = true ∧ extension info = "pdf"))
  ∧ (processes_upload file_eqb w s = false →
     uploaded_document_content (setup_sidebar lower file_eqb w account s).2
     = uploaded_document_content s).
Proof.
  rewrite setup_sidebar_documents.
  destruct (processes_upload file_eqb w s).
  - split; [|split; [|split]]; [| | |done].
    + intros k Hk. apply fold_record_pdf_keys. by left.
    + intros k Hk. by apply fold_record_pdf_keys in Hk.
    + intros k info. apply fold_record_pdf_get.
  - split; [|split; [|split]]; by auto.
Qed.






(** ** start_ingestion_job of scripts/create_kb.py (lines 304-336) *)

Lemma status_calls_app evs1 evs2 :
  status_calls (evs1 ++ evs2) = status_calls evs1 + status_calls evs2.
Proof. induction evs1 as [|[] evs1 IH]; simpl; try done. by rewrite IH. Qed.

Lemma kb_slept_app evs1 evs2 :
  kb_slept (evs1 ++ evs2) = kb_slept evs1 + kb_slept evs2.
Proof. induction evs1 as [|[] evs1 IH]; simpl; try done; rewrite IH; lia. Qed.

Lemma wait_for_ingestion_spins kb_id ds_id job answers :
  ij_status job ≠ "COMPLETE" →
  forallb incomplete answers = true →
  ∃ evs, wait_for_ingestion kb_id ds_id job answers = (Spin, evs)
         ∧ status_calls evs = length answers
         ∧ kb_slept evs = 5 * length answers.
Proof.
  revert job. induction answers as [|[job'|e] answers IH]; intros job Hjob Hall;
    simpl in *.
  - rewrite bool_decide_eq_true_2 by done. by exists [].
  - apply andb_prop in Hall as [Hj' Hall]. apply bool_decide_eq_true_1 in Hj'.
    rewrite bool_decide_eq_true_2 by done.
    destruct (IH job' Hj' Hall) as (evs & -> & Hcalls & Hslept).
    eexists. split; [reflexivity |]. simpl. split; lia.
  - done.
Qed.

Lemma wait_for_ingestion_returns kb_id ds_id job pre done post :
  ij_status job ≠ "COMPLETE" →
  forallb incomplete pre = true →
  ij_status done = "COMPLETE" →
  ∃ evs, wait_for_ingestion kb_id ds_id job (pre ++ Ok done :: post)
         = (Ret done, evs)
         ∧ status_calls evs = S (length pre)
         ∧ kb_slept evs = 5 * S (length pre).
Proof.
  revert job. induction pre as [|[job'|e] pre IH]; intros job Hjob Hall Hdone;
    simpl in *.
  - rewrite bool_decide_eq_true_2 by done.
    destruct post; simpl; rewrite bool_decide_eq_false_2 by (by intros []);
      by eexists.
  - apply andb_prop in Hall as [Hj' Hall]. apply bool_decide_eq_true_1 in Hj'.
    rewrite bool_decide_eq_true_2 by done.
    destruct (IH job' Hj' Hall Hdone) as (evs & -> & Hcalls & Hslept).
    eexists. split; [reflexivity |]. simpl. split; lia.
  - done.
Qed.

(** X17: the ingestion loop ends on the status "COMPLETE" and on nothing else.
    While the answers carry any other status ("FAILED" too) the script is
    still polling, with one status call and five seconds of sleep per answer;
    with the first "COMPLETE" answer it returns, after one call per answer up
    to that one and forty more seconds of sleep, and later answers are never
    asked for. *)
Theorem ingestion_ends_only_on_complete kb_id ds_id job answers :
  ij_status job ≠ "COMPLETE" →
  (forallb incomplete answers = true →
   ∃ evs, start_ingestion_job kb_id ds_id (Ok job) answers = (Spin, evs)
          ∧ status_calls evs = length answers
          ∧ kb_slept evs = 5 * length answers)
  ∧ (∀ pre done post,
       answers = pre ++ Ok done :: post →
       forallb incomplete pre = true →
       ij_status done = "COMPLETE" →
       ∃ evs, start_ingestion_job kb_id ds_id (Ok job) answers = (Ret tt, evs)
              ∧ status_calls evs = S (length pre)
              ∧ kb_slept evs = 5 * S (length pre) + 40).
Proof.
  intros Hjob. split.
  - intros Hall.
    destruct (wait_for_ingestion_spins kb_id ds_id job answers Hjob Hall)
      as (evs & Hrun & Hcalls & Hslept).
    unfold start_ingestion_job. rewrite Hrun. eexists. split; [reflexivity |].
    simpl. done.
  - intros pre done post -> Hall Hdone.
    destruct (wait_for_ingestion_returns kb_id ds_id job pre done post
                Hjob Hall Hdone) as (evs & Hrun & Hcalls & Hslept).
    unfold start_ingestion_job. rewrite Hrun. eexists. split; [reflexivity |].
    simpl. rewrite status_calls_app, kb_slept_app. simpl. split; lia.
Qed.

(** A job that fails: the script keeps asking. *)
Lemma ingestion_ends_only_on_complete_witness :
  ∃ evs, start_ingestion_job "KB1" "DS1" (Ok (job_in "STARTING"))
           [Ok (job_in "IN_PROGRESS"); Ok (job_in "FAILED"); Ok (job_in "FAILED")]
         = (Spin, evs)
         ∧ status_calls evs = 3
         ∧ kb_slept evs = 15.
Proof.
  exact (proj1 (ingestion_ends_only_on_complete "KB1" "DS1" (job_in "STARTING")
                  [Ok (job_in "IN_PROGRESS"); Ok (job_in "FAILED");
                   Ok (job_in "FAILED")]
                  ltac:(discriminate)) eq_refl).
Defined.

